(** * Player_Performance: team aggregation, report export and registration validation

    A shallow embedding of the computational core of the coach dashboard
    ([src/components/coach/CoachDashboard.jsx]) and of the registration form
    ([validateForm] of the RegisterForm component), with the properties stated
    about them in the specification.

    Conventions of the embedding.
    - A JavaScript number is an exact rational ([Q]) and results are compared
      with [==] wherever a property rests on the comparisons and the shape of
      the data; the stored team average, which rests on the rounding of
      double-precision arithmetic, is computed on IEEE 754 doubles in
      [Double].
    - An object property that may be missing is an [option]; [x || d] is
      written out with JavaScript's falsy test ([num_or], [str_or]).
    - A string is a [string] of code units below 256.
    - React state is passed explicitly: a setter is a function on the state
      record. *)

From Stdlib Require Import QArith Qround ZArith Lia List String Ascii Bool.
From Stdlib Require Floats.
From stdpp Require Import gmap strings.
Import ListNotations.

(** ** JavaScript values *)

Module JS.

Abbreviation number := Q.

(** [x || d] on a numeric property: [undefined] and [0] are falsy. *)
Definition num_or (x : option number) (d : number) : number :=
  match x with
  | Some v => if Qeq_bool v 0 then d else v
  | None => d
  end.

(** [x || d] on a string property: [undefined] and the empty string are falsy. *)
Definition str_or (x : option string) (d : string) : string :=
  match x with
  | Some EmptyString => d
  | Some v => v
  | None => d
  end.

(** [a > b] on numbers. *)
Definition gt (a b : number) : bool :=
  match (a ?= b)%Q with
  | Gt => true
  | _ => false
  end.

(** [a >= b] on numbers. *)
Definition ge (a b : number) : bool := Qle_bool b a.

(** [Math.round]: the nearest integer, a half going towards plus infinity. *)
Definition Math_round (x : number) : number := inject_Z (Qfloor (x + (1 # 2))).

(** Code units the export and the validation single out. *)
Definition dquote : ascii := "034"%char.
Definition newline : ascii := "010"%char.
Definition comma : ascii := ","%char.

Definition str (c : ascii) : string := String c EmptyString.

(** [s.includes(sub)] *)
Fixpoint includes (s sub : string) : bool :=
  String.prefix sub s
  || match s with
     | EmptyString => false
     | String _ s' => includes s' sub
     end.

(** [s.replace(/c/g, by)] for a pattern that is the single code unit [c]. *)
Fixpoint replace_all (c : ascii) (by_ : string) (s : string) : string :=
  match s with
  | EmptyString => EmptyString
  | String a s' =>
      if Ascii.eqb a c then by_ ++ replace_all c by_ s'
      else String a (replace_all c by_ s')
  end.

(** [l.join(sep)] on an array of strings. *)
Definition join (sep : string) (l : list string) : string := String.concat sep l.

(** [!s] on a string. *)
Definition is_empty (s : string) : bool :=
  match s with
  | EmptyString => true
  | String _ _ => false
  end.

(** White space and line terminators, as [\s] and [trim] read them
    (code units below 256). *)
Definition is_whitespace (c : ascii) : bool :=
  let n := nat_of_ascii c in
  ((n =? 9) || (n =? 10) || (n =? 11) || (n =? 12) || (n =? 13)
   || (n =? 32) || (n =? 160))%nat.

Fixpoint trimStart (s : string) : string :=
  match s with
  | EmptyString => EmptyString
  | String c s' => if is_whitespace c then trimStart s' else s
  end.

Fixpoint trimEnd (s : string) : string :=
  match s with
  | EmptyString => EmptyString
  | String c s' =>
      match trimEnd s' with
      | EmptyString => if is_whitespace c then EmptyString else str c
      | t => String c t
      end
  end.

(** [s.trim()] *)
Definition trim (s : string) : string := trimEnd (trimStart s).

End JS.

(** ** Regular expressions

    The fragment of the pattern language the form uses: classes of code
    units, concatenation, alternation and iteration.  Matching is by
    derivatives; [test] is the search of an unanchored pattern. *)

Module RegExp.

Inductive regex :=
| Void
| Eps
| Class (f : ascii -> bool)
| Cat (r1 r2 : regex)
| Alt (r1 r2 : regex)
| Star (r : regex).

Definition Chr (c : ascii) : regex := Class (Ascii.eqb c).
Definition Any : regex := Class (fun _ => true).
(** [\S] *)
Definition NonSpace : regex := Class (fun c => negb (JS.is_whitespace c)).
(** [r+] *)
Definition Plus (r : regex) : regex := Cat r (Star r).

Fixpoint nullable (r : regex) : bool :=
  match r with
  | Void => false
  | Eps => true
  | Class _ => false
  | Cat r1 r2 => nullable r1 && nullable r2
  | Alt r1 r2 => nullable r1 || nullable r2
  | Star _ => true
  end.

Fixpoint deriv (a : ascii) (r : regex) : regex :=
  match r with
  | Void => Void
  | Eps => Void
  | Class f => if f a then Eps else Void
  | Cat r1 r2 =>
      if nullable r1 then Alt (Cat (deriv a r1) r2) (deriv a r2)
      else Cat (deriv a r1) r2
  | Alt r1 r2 => Alt (deriv a r1) (deriv a r2)
  | Star r1 => Cat (deriv a r1) (Star r1)
  end.

(** The whole of [s] is a word of [r]. *)
Fixpoint matchb (r : regex) (s : string) : bool :=
  match s with
  | EmptyString => nullable r
  | String a s' => matchb (deriv a r) s'
  end.

(** [r.test(s)] for a pattern with no anchor and no flag: some substring
    of [s] is a word of [r]. *)
Definition test (r : regex) (s : string) : bool :=
  matchb (Cat (Star Any) (Cat r (Star Any))) s.

End RegExp.

(** ** The coach dashboard *)

Module CoachDashboard.
Import JS.
Local Open Scope Q_scope.

(** A player document as the store returns it; any property may be missing. *)
Module Player.
Record t := mk {
  id : option string;
  name : option string;
  email : option string;
  sport : option string;
  currentScore : option number;
  matchCount : option number;
  totalScore : option number;
  averageScore : option number
}.
End Player.

(** The [teamStats] state value. *)
Module TeamStats.
Record t := mk {
  totalPlayers : number;
  averageScore : number;
  totalMatches : number;
  topPerformer : option Player.t
}.
End TeamStats.

(** The component state read by the functions below. *)
Record State := mkState {
  players : list Player.t;
  teamStats : TeamStats.t
}.

Definition setPlayers (v : list Player.t) (st : State) : State :=
  {| players := v; teamStats := teamStats st |}.

Definition setTeamStats (v : TeamStats.t) (st : State) : State :=
  {| players := players st; teamStats := v |}.

Definition initialTeamStats : TeamStats.t :=
  {| TeamStats.totalPlayers := 0;
     TeamStats.averageScore := 0;
     TeamStats.totalMatches := 0;
     TeamStats.topPerformer := None |}.

Definition initialState : State :=
  {| players := []; teamStats := initialTeamStats |}.

(** The callback of [filter]: the player has at least one match. *)
Definition hasMatch (player : Player.t) : bool :=
  gt (num_or (Player.matchCount player) 0) 0.

(** The callback of the [reduce] that looks for the top performer;
    [!top] holds of [null] only. *)
Definition pickTop (top : option Player.t) (player : Player.t) : option Player.t :=
  let playerAvg := num_or (Player.averageScore player) 0 in
  match top with
  | None => Some player
  | Some t =>
      if gt playerAvg (num_or (Player.averageScore t) 0) then Some player else top
  end.

(** The value [calculateTeamStats] hands to [setTeamStats]. *)
Definition computeTeamStats (playersData : list Player.t) : TeamStats.t :=
  if (List.length playersData =? 0)%nat then
    {| TeamStats.totalPlayers := 0;
       TeamStats.averageScore := 0;
       TeamStats.totalMatches := 0;
       TeamStats.topPerformer := None |}
  else
    let totalPlayers := inject_Z (Z.of_nat (List.length playersData)) in
    let totalMatches :=
      fold_left (fun sum player => sum + num_or (Player.matchCount player) 0)
                playersData 0 in
    let totalScore :=
      fold_left (fun sum player => sum + num_or (Player.totalScore player) 0)
                playersData 0 in
    let averageScore :=
      if gt totalMatches 0 then totalScore / totalMatches else 0 in
    let topPerformer := fold_left pickTop (List.filter hasMatch playersData) None in
    {| TeamStats.totalPlayers := totalPlayers;
       TeamStats.averageScore := Math_round (averageScore * 100) / 100;
       TeamStats.totalMatches := totalMatches;
       TeamStats.topPerformer := topPerformer |}.

Definition calculateTeamStats (playersData : list Player.t) (st : State) : State :=
  setTeamStats (computeTeamStats playersData) st.

(** [loadDashboardData] once the store has answered with [playersData]. *)
Definition loadDashboardData (playersData : list Player.t) (st : State) : State :=
  calculateTeamStats playersData (setPlayers playersData st).

(** [getPerformanceColor] *)
Definition getPerformanceColor (score : number) : string :=
  if ge score 80 then "text-green-600"
  else if ge score 60 then "text-yellow-600"
  else "text-red-600".

(** [getPerformanceStatus] *)
Definition getPerformanceStatus (score : number) : string :=
  if ge score 80 then "Excellent"
  else if ge score 60 then "Good"
  else "Needs Improvement".

(** The signed-in user, as far as the export reads it. *)
Module UserData.
Record t := mk {
  uid : option string;
  name : option string
}.
End UserData.

(** A cell of the report: a string or a number. *)
Inductive Cell :=
| CStr (s : string)
| CNum (n : number).

Section ReportExport.

(** The number-to-string conversion of the engine ([String(n)] and template
    literals); the export is parametric in it. *)
Variable Number_toString : number -> string.

(** [String(cell)] *)
Definition String_ (cell : Cell) : string :=
  match cell with
  | CStr s => s
  | CNum n => Number_toString n
  end.

Definition headers : list Cell :=
  [CStr "Player Name"; CStr "Email"; CStr "Sport"; CStr "Current Score (%)";
   CStr "Performance Status"; CStr "Total Matches"; CStr "Average Score"].

(** The row [players.map] builds for one player. *)
Definition playerRow (player : Player.t) : list Cell :=
  [CStr (str_or (Player.name player) EmptyString);
   CStr (str_or (Player.email player) EmptyString);
   CStr (str_or (Player.sport player) EmptyString);
   CNum (num_or (Player.currentScore player) 0);
   CStr (getPerformanceStatus (num_or (Player.currentScore player) 0));
   CNum (num_or (Player.matchCount player) 0);
   CNum (num_or (Player.averageScore player) 0)].

(** [userData?.name] and [teamStats.topPerformer?.name] *)
Definition userName (userData : option UserData.t) : option string :=
  match userData with
  | Some u => UserData.name u
  | None => None
  end.

Definition topPerformerName (ts : TeamStats.t) : option string :=
  match TeamStats.topPerformer ts with
  | Some p => Player.name p
  | None => None
  end.

Definition summaryRows (userData : option UserData.t) (localeDate : string)
    (st : State) : list (list Cell) :=
  [ [CStr "Team Performance Report"];
    [CStr "Coach Name"; CStr (str_or (userName userData) EmptyString)];
    [CStr "Report Date"; CStr localeDate];
    [CStr EmptyString];
    [CStr "Team Statistics"];
    [CStr "Total Players"; CNum (TeamStats.totalPlayers (teamStats st))];
    [CStr "Team Average Score";
     CStr (Number_toString (TeamStats.averageScore (teamStats st)) ++ "%")];
    [CStr "Total Matches"; CNum (TeamStats.totalMatches (teamStats st))];
    [CStr "Top Performer"; CStr (str_or (topPerformerName (teamStats st)) "N/A")];
    [CStr EmptyString];
    [CStr "Player Details"] ].

Definition allRows (userData : option UserData.t) (localeDate : string)
    (st : State) : list (list Cell) :=
  summaryRows userData localeDate st ++ [headers] ++ map playerRow (players st).

(** The callback of the inner [row.map]. *)
Definition escapeCell (cell : Cell) : string :=
  let cellStr := String_ cell in
  if includes cellStr (str comma) || includes cellStr (str dquote)
     || includes cellStr (str newline)
  then str dquote ++ replace_all dquote (str dquote ++ str dquote) cellStr ++ str dquote
  else cellStr.

Definition csvLine (row : list Cell) : string :=
  join (str comma) (map escapeCell row).

(** [handleExportReport]: the text handed to the [Blob], with
    [localeDate] standing for [new Date().toLocaleDateString()]. *)
Definition handleExportReport (userData : option UserData.t) (localeDate : string)
    (st : State) : string :=
  join (str newline) (map csvLine (allRows userData localeDate st)).

End ReportExport.

(** *** The rest of the component *)

(** The class of the dot beside a player's current score (the conditional
    written inline in the player card). *)
Definition scoreDotClass (player : Player.t) : string :=
  if ge (num_or (Player.currentScore player) 0) 80 then "bg-green-500"
  else if ge (num_or (Player.currentScore player) 0) 60 then "bg-yellow-500"
  else "bg-red-500".

(** The text of the Top Performer card; [None] is a name that is missing,
    which renders as nothing. *)
Definition topPerformerCard (ts : TeamStats.t) : option string :=
  match TeamStats.topPerformer ts with
  | Some p => Player.name p
  | None => Some "N/A"%string
  end.

(** [s.split(c)[0]] for a separator that is the single code unit [c]. *)
Fixpoint beforeFirst (c : ascii) (s : string) : string :=
  match s with
  | EmptyString => EmptyString
  | String a s' => if Ascii.eqb a c then EmptyString else String a (beforeFirst c s')
  end.

(** The [download] attribute of the link, with [isoString] standing for
    [new Date().toISOString()]. *)
Definition reportFileName (isoString : string) : string :=
  ("team-report-" ++ beforeFirst "T" isoString ++ ".csv")%string.

(** The state of the component with its [loading] and [error] parts. *)
Record View := mkView {
  state : State;
  loading : bool;
  error : option string
}.



Definition initialView : View :=
  {| state := initialState; loading := true; error := None |}.





End CoachDashboard.

(** ** The registration form *)

Module RegisterForm.
Import JS RegExp.

Record FormData := mkFormData {
  name : string;
  email : string;
  password : string;
  confirmPassword : string;
  role : string;
  sport : string
}.

Definition initialFormData : FormData :=
  {| name := EmptyString; email := EmptyString; password := EmptyString;
     confirmPassword := EmptyString; role := EmptyString; sport := EmptyString |}.

(** The literal [/\S+@\S+\.\S+/] *)
Definition emailPattern : regex :=
  Cat (Plus NonSpace)
      (Cat (Chr "@") (Cat (Plus NonSpace) (Cat (Chr ".") (Plus NonSpace)))).

(** [validateForm]: the object [newErrors] after the six statements. *)
Definition validateForm (formData : FormData) : gmap string string :=
  let newErrors : gmap string string := ∅ in
  let newErrors :=
    if is_empty (trim (name formData)) then
      <["name" := "Full name is required"]> newErrors
    else if (String.length (trim (name formData)) <? 2)%nat then
      <["name" := "Name must be at least 2 characters long"]> newErrors
    else newErrors in
  let newErrors :=
    if is_empty (trim (email formData)) then
      <["email" := "Email is required"]> newErrors
    else if negb (test emailPattern (email formData)) then
      <["email" := "Please enter a valid email address"]> newErrors
    else newErrors in
  let newErrors :=
    if is_empty (password formData) then
      <["password" := "Password is required"]> newErrors
    else if (String.length (password formData) <? 6)%nat then
      <["password" := "Password must be at least 6 characters long"]> newErrors
    else newErrors in
  let newErrors :=
    if is_empty (confirmPassword formData) then
      <["confirmPassword" := "Please confirm your password"]> newErrors
    else if negb (String.eqb (password formData) (confirmPassword formData)) then
      <["confirmPassword" := "Passwords do not match"]> newErrors
    else newErrors in
  let newErrors :=
    if is_empty (role formData) then
      <["role" := "Please select your role"]> newErrors
    else newErrors in
  let newErrors :=
    if String.eqb (role formData) "player" && is_empty (sport formData) then
      <["sport" := "Please select your sport"]> newErrors
    else newErrors in
  newErrors.

(** [handleSubmit] goes on to register exactly when no key was set. *)
Definition formIsValid (formData : FormData) : bool :=
  negb (0 <? size (validateForm formData))%nat.

(** *** The handlers of the form *)

(** The inputs of the form, by their [name] attribute. *)
Inductive Field := FName | FEmail | FPassword | FConfirmPassword | FRole | FSport.

Definition fieldName (f : Field) : string :=
  match f with
  | FName => "name"
  | FEmail => "email"
  | FPassword => "password"
  | FConfirmPassword => "confirmPassword"
  | FRole => "role"
  | FSport => "sport"
  end.

Definition getField (f : Field) (formData : FormData) : string :=
  match f with
  | FName => name formData
  | FEmail => email formData
  | FPassword => password formData
  | FConfirmPassword => confirmPassword formData
  | FRole => role formData
  | FSport => sport formData
  end.

(** The object spread that replaces one field. *)
Definition setField (f : Field) (value : string) (prev : FormData) : FormData :=
  match f with
  | FName =>
      {| name := value; email := email prev; password := password prev;
         confirmPassword := confirmPassword prev; role := role prev; sport := sport prev |}
  | FEmail =>
      {| name := name prev; email := value; password := password prev;
         confirmPassword := confirmPassword prev; role := role prev; sport := sport prev |}
  | FPassword =>
      {| name := name prev; email := email prev; password := value;
         confirmPassword := confirmPassword prev; role := role prev; sport := sport prev |}
  | FConfirmPassword =>
      {| name := name prev; email := email prev; password := password prev;
         confirmPassword := value; role := role prev; sport := sport prev |}
  | FRole =>
      {| name := name prev; email := email prev; password := password prev;
         confirmPassword := confirmPassword prev; role := value; sport := sport prev |}
  | FSport =>
      {| name := name prev; email := email prev; password := password prev;
         confirmPassword := confirmPassword prev; role := role prev; sport := value |}
  end.

(** The state of the component. *)
Record FormState := mkFormState {
  formData : FormData;
  errors : gmap string string;
  isSubmitting : bool
}.

Definition initialFormState : FormState :=
  {| formData := initialFormData; errors := ∅; isSubmitting := false |}.

(** The setters, each taking an updater of the previous value. *)
Definition setFormData (u : FormData -> FormData) (st : FormState) : FormState :=
  {| formData := u (formData st); errors := errors st; isSubmitting := isSubmitting st |}.

Definition setErrors (u : gmap string string -> gmap string string) (st : FormState)
  : FormState :=
  {| formData := formData st; errors := u (errors st); isSubmitting := isSubmitting st |}.

Definition setIsSubmitting (v : bool) (st : FormState) : FormState :=
  {| formData := formData st; errors := errors st; isSubmitting := v |}.

(** An entry of [errors] read as a condition: a missing entry and the empty
    string are falsy. *)
Definition shown (e : option string) : bool :=
  match e with
  | Some (String _ _) => true
  | _ => false
  end.

(** [handleChange] for the input [f] and the value typed; the conditions read
    the [errors] of the render the handler belongs to. *)
Definition handleChange (f : Field) (value : string) (st : FormState) : FormState :=
  let st1 := setFormData (setField f value) st in
  let st2 :=
    if shown (errors st !! fieldName f)
    then setErrors (fun prev => <[fieldName f := EmptyString]> prev) st1
    else st1 in
  if String.eqb (fieldName f) "role" && String.eqb value "coach" then
    let st3 := setFormData (setField FSport EmptyString) st2 in
    if shown (errors st !! "sport")
    then setErrors (fun prev => <["sport" := EmptyString]> prev) st3
    else st3
  else st2.

(** The arguments [handleSubmit] passes to [register]. *)
Record Registration := mkRegistration {
  reg_email : string;
  reg_password : string;
  reg_name : string;
  reg_role : string;
  reg_sport : option string
}.

Definition registration (formData : FormData) : Registration :=
  {| reg_email := email formData;
     reg_password := password formData;
     reg_name := trim (name formData);
     reg_role := role formData;
     reg_sport :=
       if String.eqb (role formData) "player" then Some (sport formData) else None |}.

(** How [register] ends: it returns, or throws an error with its [message],
    if it has one. *)
Inductive RegisterResult :=
| Registered
| Rejected (message : option string).

(** What a submission leaves behind: the state, the call made to [register],
    if any, and whether the page was reloaded. *)
Record Submission := mkSubmission {
  after : FormState;
  called : option Registration;
  reloaded : bool
}.

(** [handleSubmit], with [register] as the function the hook provides.  An
    error without a message leaves [errors.submit] undefined, which reads as
    no entry. *)
Definition handleSubmit (register : Registration -> RegisterResult) (st : FormState)
  : Submission :=
  let formErrors := validateForm (formData st) in
  if (0 <? size formErrors)%nat then
    {| after := setErrors (fun _ => formErrors) st; called := None; reloaded := false |}
  else
    let st1 := setIsSubmitting true st in
    let st2 := setErrors (fun _ => ∅) st1 in
    let call := registration (formData st) in
    match register call with
    | Registered =>
        {| after := setIsSubmitting false st2; called := Some call; reloaded := true |}
    | Rejected message =>
        let st3 :=
          setErrors (fun _ => match message with
                              | Some m => {["submit" := m]}
                              | None => ∅
                              end) st2 in
        {| after := setIsSubmitting false st3; called := Some call; reloaded := false |}
    end.

(** The sport select is rendered for the role player only; the other inputs
    always are. *)
Definition rendered (f : Field) (st : FormState) : bool :=
  match f with
  | FSport => String.eqb (role (formData st)) "player"
  | _ => true
  end.

End RegisterForm.

(** ** The team statistics in double precision *)

(** [calculateTeamStats] once more, with every number a double and [+], [/],
    [*], [>] and [Math.round] those of IEEE 754 binary64: what the rounding
    of the stored average depends on. *)
Module Double.
Import Floats.
Local Open Scope float_scope.

Abbreviation number := float.

(** [x || d] on a numeric property: [undefined], [NaN], [0] and [-0] are
    falsy. *)
Definition num_or (x : option number) (d : number) : number :=
  match x with
  | Some v => if is_nan v || (v =? 0) then d else v
  | None => d
  end.

(** [a > b] *)
Definition gt (a b : number) : bool := b <? a.

(** The exact value of the finite double of sign [s], mantissa [m] and
    exponent [e]. *)
Definition value (s : bool) (m : positive) (e : Z) : Q :=
  match e with
  | Zneg k => Qmake (cond_Zopp s (Zpos m)) (Pos.pow 2 k)
  | _ => inject_Z (cond_Zopp s (Zpos m) * 2 ^ e)
  end.

(** The double nearest to an integer. *)
Definition of_Z (n : Z) : number := SF2Prim (binary_normalize prec emax n 0 false).

(** Rounding to an integer by [f] on the exact value: a double that is not
    finite, a zero, or a double without fractional bits is returned as it is;
    a result of 0 keeps the sign of the argument. *)
Definition integral (f : Q -> Z) (x : number) : number :=
  match Prim2SF x with
  | S754_finite s m e =>
      if (0 <=? e)%Z then x
      else match f (value s m e) with
           | Z0 => if s then neg_zero else zero
           | n => of_Z n
           end
  | _ => x
  end.

(** [Math.round]: the nearest integer, a half going towards plus infinity. *)
Definition Math_round (x : number) : number :=
  integral (fun q => Qfloor (q + (1 # 2))) x.

Module Player.
Record t := mk {
  id : option string;
  name : option string;
  email : option string;
  sport : option string;
  currentScore : option number;
  matchCount : option number;
  totalScore : option number;
  averageScore : option number
}.
End Player.

Module TeamStats.
Record t := mk {
  totalPlayers : number;
  averageScore : number;
  totalMatches : number;
  topPerformer : option Player.t
}.
End TeamStats.

(** [p => (p.matchCount || 0) > 0] *)
Definition hasMatch (player : Player.t) : bool :=
  gt (num_or (Player.matchCount player) 0) 0.

(** The callback of the [reduce] that picks the top performer. *)
Definition pickTop (top : option Player.t) (player : Player.t) : option Player.t :=
  let playerAvg := num_or (Player.averageScore player) 0 in
  match top with
  | None => Some player
  | Some t =>
      if gt playerAvg (num_or (Player.averageScore t) 0) then Some player else top
  end.

(** The object [calculateTeamStats] passes to [setTeamStats]. *)
Definition computeTeamStats (playersData : list Player.t) : TeamStats.t :=
  if (List.length playersData =? 0)%nat then
    {| TeamStats.totalPlayers := 0;
       TeamStats.averageScore := 0;
       TeamStats.totalMatches := 0;
       TeamStats.topPerformer := None |}
  else
    let totalPlayers := of_Z (Z.of_nat (List.length playersData)) in
    let totalMatches :=
      fold_left (fun sum player => sum + num_or (Player.matchCount player) 0)
                playersData 0 in
    let totalScore :=
      fold_left (fun sum player => sum + num_or (Player.totalScore player) 0)
                playersData 0 in
    let averageScore :=
      if gt totalMatches 0 then totalScore / totalMatches else 0 in
    let topPerformer := fold_left pickTop (List.filter hasMatch playersData) None in
    {| TeamStats.totalPlayers := totalPlayers;
       TeamStats.averageScore := Math_round (averageScore * 100) / 100;
       TeamStats.totalMatches := totalMatches;
       TeamStats.topPerformer := topPerformer |}.

End Double.

(** ** Notions of the specification *)

Module Spec.
Import JS CoachDashboard.
Local Open Scope Q_scope.

(** A numeric field with a missing value read as 0. *)
Definition orZero (x : option number) : number :=
  match x with
  | Some v => v
  | None => 0
  end.

(** The sum of a field over a roster. *)
Fixpoint total (field : Player.t -> option number) (roster : list Player.t) : number :=
  match roster with
  | [] => 0
  | p :: rest => orZero (field p) + total field rest
  end.

(** Rounding to the nearest integer, a half going away from zero. *)
Definition round_half_away (x : number) : Z :=
  if Qle_bool 0 x then Qfloor (x + (1 # 2)) else Qceiling (x - (1 # 2)).

(** A record counts for the top performer when it has a match. *)
Definition eligible (p : Player.t) : Prop := 0 < orZero (Player.matchCount p).

Definition avg (p : Player.t) : number := orZero (Player.averageScore p).

(** [p] stands in [roster] before every eligible record that equals its
    average and is beaten by no eligible record. *)
Definition first_best (roster : list Player.t) (p : Player.t) : Prop :=
  exists before after,
    roster = before ++ p :: after /\
    eligible p /\
    (forall q, In q before -> eligible q -> avg q < avg p) /\
    (forall q, In q after -> eligible q -> avg q <= avg p).




(** The tiers of the classification and their display labels. *)
Inductive tier := excellent | good | needs_improvement.

Inductive has_tier (score : number) : tier -> Prop :=
| tier_excellent : 80 <= score -> has_tier score excellent
| tier_good : 60 <= score -> score < 80 -> has_tier score good
| tier_needs_improvement : score < 60 -> has_tier score needs_improvement.

Definition displayLabel (t : tier) : string :=
  match t with
  | excellent => "Excellent"
  | good => "Good"
  | needs_improvement => "Needs Improvement"
  end.

(** [c] occurs in [s]. *)
Definition occurs (c : ascii) (s : string) : Prop :=
  exists s1 s2, s = (s1 ++ String c s2)%string.

(** A cell has to be quoted when a comma, a double quote or a newline occurs
    in it. *)
Definition needs_quotes (s : string) : Prop :=
  occurs comma s \/ occurs dquote s \/ occurs newline s.

(** Every double quote written twice. *)
Definition doubleQuotes (s : string) : string :=
  string_of_list_ascii
    (flat_map (fun c => if Ascii.eqb c dquote then [dquote; dquote] else [c])
              (list_ascii_of_string s)).

Definition quoted (s : string) : string :=
  (str dquote ++ doubleQuotes s ++ str dquote)%string.

(** *** Words of a pattern *)

Inductive matches : RegExp.regex -> string -> Prop :=
| matches_eps : matches RegExp.Eps EmptyString
| matches_class f c : f c = true -> matches (RegExp.Class f) (str c)
| matches_cat r1 r2 s1 s2 :
    matches r1 s1 -> matches r2 s2 -> matches (RegExp.Cat r1 r2) (s1 ++ s2)%string
| matches_alt_l r1 r2 s : matches r1 s -> matches (RegExp.Alt r1 r2) s
| matches_alt_r r1 r2 s : matches r2 s -> matches (RegExp.Alt r1 r2) s
| matches_star_nil r : matches (RegExp.Star r) EmptyString
| matches_star_app r s1 s2 :
    matches r s1 -> matches (RegExp.Star r) s2 ->
    matches (RegExp.Star r) (s1 ++ s2)%string.

(** [m] stands somewhere in [s]. *)
Definition substring_of (m s : string) : Prop :=
  exists pre post, s = (pre ++ m ++ post)%string.

Fixpoint all_nonspace (s : string) : Prop :=
  match s with
  | EmptyString => True
  | String c s' => is_whitespace c = false /\ all_nonspace s'
  end.

Fixpoint all_whitespace (s : string) : Prop :=
  match s with
  | EmptyString => True
  | String c s' => is_whitespace c = true /\ all_whitespace s'
  end.

(** A token: at least one character, none of them white space. *)
Definition token (s : string) : Prop := s <> EmptyString /\ all_nonspace s.

(** The shape token@token.token. *)
Definition email_shape (s : string) : Prop :=
  exists a b c,
    token a /\ token b /\ token c /\
    s = (a ++ str "@" ++ b ++ str "." ++ c)%string.

(** *** The rules of the registration form *)

(** The texts under which the form reports each error. *)
Definition name_required : string := "Full name is required".
Definition name_too_short : string := "Name must be at least 2 characters long".
Definition email_required : string := "Email is required".
Definition email_invalid_format : string := "Please enter a valid email address".
Definition password_required : string := "Password is required".
Definition password_too_short : string := "Password must be at least 6 characters long".
Definition confirmPassword_required : string := "Please confirm your password".
Definition confirmPassword_mismatch : string := "Passwords do not match".
Definition role_required : string := "Please select your role".
Definition sport_required : string := "Please select your sport".

(** One rule per field, each a function of the fields it names. *)
Definition nameRule (name : string) : option string :=
  if is_empty (trim name) then Some name_required
  else if (String.length (trim name) <? 2)%nat then Some name_too_short
  else None.

Definition emailRule (email : string) : option string :=
  if is_empty (trim email) then Some email_required
  else if RegExp.test RegisterForm.emailPattern email then None
  else Some email_invalid_format.

Definition passwordRule (password : string) : option string :=
  if is_empty password then Some password_required
  else if (String.length password <? 6)%nat then Some password_too_short
  else None.

Definition confirmPasswordRule (password confirmPassword : string) : option string :=
  if is_empty confirmPassword then Some confirmPassword_required
  else if String.eqb password confirmPassword then None
  else Some confirmPassword_mismatch.

Definition roleRule (role : string) : option string :=
  if is_empty role then Some role_required else None.

Definition sportRule (role sport : string) : option string :=
  if String.eqb role "player" && is_empty sport then Some sport_required else None.

(** An error, if any, entered under its field. *)
Definition report (field : string) (e : option string) (m : gmap string string)
  : gmap string string :=
  match e with
  | Some msg => <[field := msg]> m
  | None => m
  end.

(** The average the dashboard stores, as a function of the two sums. *)
Definition storedAverage (totalScore totalMatches : number) : number :=
  Math_round ((if gt totalMatches 0 then totalScore / totalMatches else 0) * 100) / 100.

(** [p] is the first of the best records of [l]. *)
Definition first_max (l : list Player.t) (p : Player.t) : Prop :=
  exists before after,
    l = before ++ p :: after /\
    (forall q, In q before -> avg q < avg p) /\
    (forall q, In q after -> avg q <= avg p).

(** The test of [escapeCell]. *)
Definition mustQuote (s : string) : bool :=
  includes s (str comma) || includes s (str dquote) || includes s (str newline).

(** A text field with a missing value read as the empty text. *)
Definition orEmpty (x : option string) : string :=
  match x with
  | Some s => s
  | None => EmptyString
  end.

(** The texts of a data row. *)
Definition dataRowTexts (N : Q -> string) (player : Player.t) : list string :=
  [ orEmpty (Player.name player);
    orEmpty (Player.email player);
    orEmpty (Player.sport player);
    N (num_or (Player.currentScore player) 0);
    getPerformanceStatus (orZero (Player.currentScore player));
    N (num_or (Player.matchCount player) 0);
    N (num_or (Player.averageScore player) 0) ].

(** The text of the header row. *)
Definition headerTexts : list string :=
  ["Player Name"; "Email"; "Sport"; "Current Score (%)"; "Performance Status";
   "Total Matches"; "Average Score"].

(** The rows of the report, as texts. *)
Definition reportTexts (N : Q -> string) (userData : option UserData.t)
    (localeDate : string) (st : State) : list (list string) :=
  ([ ["Team Performance Report"];
     ["Coach Name"; str_or (userName userData) EmptyString];
     ["Report Date"; localeDate];
     [EmptyString];
     ["Team Statistics"];
     ["Total Players"; N (TeamStats.totalPlayers (teamStats st))];
     ["Team Average Score";
      (N (TeamStats.averageScore (teamStats st)) ++ "%")%string];
     ["Total Matches"; N (TeamStats.totalMatches (teamStats st))];
     ["Top Performer"; str_or (topPerformerName (teamStats st)) "N/A"];
     [EmptyString];
     ["Player Details"];
     headerTexts ]
   ++ map (dataRowTexts N) (players st))%list.

(** The reading under which the email as a whole has to have the shape. *)
Definition invalid_iff_not_shaped (formData : RegisterForm.FormData) : Prop :=
  RegisterForm.validateForm formData !! "email"%string = Some email_invalid_format
  <-> ~ email_shape (RegisterForm.email formData).

(** *** Further notions *)

(** The text and dot classes that go with a tier. *)
Definition tierTextClass (t : tier) : string :=
  match t with
  | excellent => "text-green-600"
  | good => "text-yellow-600"
  | needs_improvement => "text-red-600"
  end.

Definition tierDotClass (t : tier) : string :=
  match t with
  | excellent => "bg-green-500"
  | good => "bg-yellow-500"
  | needs_improvement => "bg-red-500"
  end.

(** [s] ends with [c]. *)
Definition ends_with (c : ascii) (s : string) : Prop :=
  exists s', s = (s' ++ str c)%string.

(** The last character of a string, if it has one. *)
Fixpoint lastChar (s : string) : option ascii :=
  match s with
  | EmptyString => None
  | String a s' =>
      match lastChar s' with
      | None => Some a
      | Some c => Some c
      end
  end.

(** The states of the form the user can bring about: from the initial state,
    by typing into an input that is rendered, or by submitting. *)
Inductive reachable : RegisterForm.FormState -> Prop :=
| reachable_initial : reachable RegisterForm.initialFormState
| reachable_change st f value :
    reachable st -> RegisterForm.rendered f st = true ->
    reachable (RegisterForm.handleChange f value st)
| reachable_submit st register :
    reachable st ->
    reachable (RegisterForm.after (RegisterForm.handleSubmit register st)).

(** What the form asks of a candidate. *)
Definition acceptable (formData : RegisterForm.FormData) : Prop :=
  (2 <= String.length (trim (RegisterForm.name formData)))%nat
  /\ (exists m, substring_of m (RegisterForm.email formData) /\ email_shape m)
  /\ (6 <= String.length (RegisterForm.password formData))%nat
  /\ RegisterForm.confirmPassword formData = RegisterForm.password formData
  /\ RegisterForm.role formData <> EmptyString
  /\ (RegisterForm.role formData = "player"%string ->
      RegisterForm.sport formData <> EmptyString).

End Spec.

(** ** Notions of the specification, in double precision *)

Module DoubleSpec.
Import Floats Double.
Local Open Scope float_scope.

(** A numeric field with a missing value read as 0. *)
Definition orZero (x : option number) : number :=
  match x with
  | Some v => v
  | None => 0
  end.

(** The sum of a list of doubles, taken from the left. *)
Fixpoint sum_from (acc : number) (l : list number) : number :=
  match l with
  | [] => acc
  | x :: rest => sum_from (acc + x) rest
  end.

(** The sum of a field over a roster. *)
Definition total (field : Player.t -> option number) (roster : list Player.t) : number :=
  sum_from 0 (map (fun p => orZero (field p)) roster).

(** Rounding to the nearest integer, a half going away from zero. *)
Definition round_half_away (x : number) : number := integral Spec.round_half_away x.

(** Rounding to two decimal places: times 100, round, divided by 100. *)
Definition round2 (x : number) : number := round_half_away (x * 100) / 100.

(** A field that is missing or holds a number that is not negative (and so
    is a number). *)
Definition not_negative (x : option number) : Prop := (0 <=? orZero x) = true.

(** The record of the data model: its match count and its total score are
    not negative. *)
Definition meets_data_model (p : Player.t) : Prop :=
  not_negative (Player.matchCount p) /\ not_negative (Player.totalScore p).

(** A zero, a finite double or an infinity with the sign bit clear, or not a
    number. *)
Definition sign_clear (f : spec_float) : Prop :=
  match f with
  | S754_zero s | S754_infinity s | S754_finite s _ _ => s = false
  | S754_nan => True
  end.

End DoubleSpec.

(** ** A reader of delimited text

    Cells are separated by commas and rows by newlines.  A cell that opens
    with a double quote runs to its closing quote, and two double quotes
    inside it stand for one. *)

Module CSV.
Import JS.

Inductive mode := Plain | Quoted | Closing.

(** [cell] is the cell read so far and [row] the cells of the row before it. *)
Fixpoint parse (m : mode) (cell : string) (row : list string) (s : string)
  : list (list string) :=
  match s with
  | EmptyString => [row ++ [cell]]
  | String c s' =>
      match m with
      | Plain =>
          if Ascii.eqb c dquote && is_empty cell then parse Quoted cell row s'
          else if Ascii.eqb c comma then parse Plain EmptyString (row ++ [cell]) s'
          else if Ascii.eqb c newline then (row ++ [cell]) :: parse Plain EmptyString [] s'
          else parse Plain (cell ++ str c) row s'
      | Quoted =>
          if Ascii.eqb c dquote then parse Closing cell row s'
          else parse Quoted (cell ++ str c) row s'
      | Closing =>
          if Ascii.eqb c dquote then parse Quoted (cell ++ str dquote) row s'
          else if Ascii.eqb c comma then parse Plain EmptyString (row ++ [cell]) s'
          else if Ascii.eqb c newline then (row ++ [cell]) :: parse Plain EmptyString [] s'
          else parse Plain (cell ++ str c) row s'
      end
  end.

Definition parseCSV (s : string) : list (list string) :=
  parse Plain EmptyString [] s.

(** What may follow a cell: the end of the text, a comma or a newline. *)
Definition delimited (rest : string) : Prop :=
  match rest with
  | EmptyString => True
  | String c _ => c = comma \/ c = newline
  end.

End CSV.

(** ** The inputs of the examples *)

Module Examples.
Import JS CoachDashboard RegisterForm.
Local Open Scope Q_scope.

(** The roster of the specification's end-to-end example. *)
Definition rosterAB : list Player.t :=
  [ Player.mk None (Some "A") None None None (Some 2) (Some 150) (Some 75);
    Player.mk None (Some "B") None None None (Some 0) (Some 0) (Some 0) ].


(** Two names of the specification's examples. *)
Definition nameDoeJohn : string := "Doe, John".
Definition nameHeSaidHi : string := "He said " ++ str dquote ++ "hi" ++ str dquote.

(** A candidate whose email has white space before a well-formed address. *)
Definition candidateSpaced : FormData :=
  {| name := "Jane Doe"; email := "a b@c.d"; password := "secret1";
     confirmPassword := "secret1"; role := "coach"; sport := EmptyString |}.

Definition candidateBad : FormData :=
  {| name := "A"; email := "bad"; password := "123"; confirmPassword := "1234";
     role := "player"; sport := EmptyString |}.

Definition candidateCoach : FormData :=
  {| name := "Jane Doe"; email := "jane@x.com"; password := "secret1";
     confirmPassword := "secret1"; role := "coach"; sport := EmptyString |}.

(** Six spaces everywhere. *)
Definition candidateBlank : FormData :=
  {| name := "      "; email := "      "; password := "      ";
     confirmPassword := "      "; role := "coach"; sport := EmptyString |}.

End Examples.

(** ** The inputs of the examples, in double precision *)

Module DoubleExamples.
Import Floats Double.
Local Open Scope float_scope.

(** The roster of the specification's end-to-end example. *)
Definition teamAB : list Player.t :=
  [ Player.mk None (Some "A"%string) None None None (Some 2) (Some 150) (Some 75);
    Player.mk None (Some "B"%string) None None None (Some 0) (Some 0) (Some 0) ].

(** Twenty-three points over forty matches. *)
Definition team23of40 : list Player.t :=
  [ Player.mk None (Some "A"%string) None None None (Some 40) (Some 23) None ].

(** A single record with no match that still carries a total score. *)
Definition teamNoMatch : list Player.t :=
  [ Player.mk None (Some "B"%string) None None None (Some 0) (Some 50) None ].

(** A roster whose total score is negative, which the data model rules out. *)
Definition teamDebt : list Player.t :=
  [ Player.mk None (Some "A"%string) None None None (Some 8) (Some (-1)) None ].

End DoubleExamples.

(** ** Facts about the JavaScript primitives *)

Module JSFacts.
Import JS.

Lemma gt_iff (a b : number) : gt a b = true <-> (b < a)%Q.
Proof.
  unfold gt. rewrite Qgt_alt. destruct (a ?= b)%Q; split; congruence.
Qed.

Lemma gt_false_iff (a b : number) : gt a b = false <-> (a <= b)%Q.
Proof.
  rewrite <- not_true_iff_false, gt_iff. split.
  - apply Qnot_lt_le.
  - apply Qle_not_lt.
Qed.

Lemma ge_iff (a b : number) : ge a b = true <-> (b <= a)%Q.
Proof. apply Qle_bool_iff. Qed.

Lemma ge_false_iff (a b : number) : ge a b = false <-> (a < b)%Q.
Proof.
  rewrite <- not_true_iff_false, ge_iff. split.
  - apply Qnot_le_lt.
  - apply Qlt_not_le.
Qed.

Lemma num_or_zero (x : option number) :
  (num_or x 0 == match x with Some v => v | None => 0 end)%Q.
Proof.
  destruct x as [v|]; simpl; [|reflexivity].
  destruct (Qeq_bool v 0) eqn:E; [|reflexivity].
  symmetry. now apply Qeq_bool_eq.
Qed.

#[export] Instance Math_round_comp : Proper (Qeq ==> Qeq) Math_round.
Proof.
  intros x y Hxy. unfold Math_round.
  assert (H : (x + (1 # 2) == y + (1 # 2))%Q) by now rewrite Hxy.
  assert (Hz : Qfloor (x + (1 # 2)) = Qfloor (y + (1 # 2))).
  { apply Z.le_antisymm; apply Qfloor_resp_le; rewrite H; apply Qle_refl. }
  now rewrite Hz.
Qed.

#[local] Arguments String.append !s1 s2 : simpl nomatch.

Lemma str_app_nil_r (s : string) : (s ++ EmptyString)%string = s.
Proof. induction s as [|a s IH]; simpl; [reflexivity|now rewrite IH]. Qed.

Lemma str_app_assoc (s1 s2 s3 : string) :
  ((s1 ++ s2) ++ s3)%string = (s1 ++ (s2 ++ s3))%string.
Proof. induction s1 as [|a s1 IH]; simpl; [reflexivity|now rewrite IH]. Qed.

End JSFacts.

(** ** The team statistics *)

Module Aggregation.
Import JS JSFacts CoachDashboard Spec Examples.
Local Open Scope Q_scope.

Lemma num_or_orZero (x : option number) : num_or x 0 == orZero x.
Proof. apply num_or_zero. Qed.





Lemma computeTeamStats_nonempty (l : list Player.t) :
  l <> [] ->
  computeTeamStats l =
  {| TeamStats.totalPlayers := inject_Z (Z.of_nat (List.length l));
     TeamStats.averageScore :=
       storedAverage
         (fold_left (fun sum player => sum + num_or (Player.totalScore player) 0) l 0)
         (fold_left (fun sum player => sum + num_or (Player.matchCount player) 0) l 0);
     TeamStats.totalMatches :=
       fold_left (fun sum player => sum + num_or (Player.matchCount player) 0) l 0;
     TeamStats.topPerformer := fold_left pickTop (List.filter hasMatch l) None |}.
Proof.
  intros Hne. unfold computeTeamStats.
  destruct l as [|p l]; [contradiction|]. reflexivity.
Qed.



Example averageScore_rosterAB :
  TeamStats.averageScore (computeTeamStats rosterAB) == 75.
Proof. reflexivity. Qed.

(** One point over eight matches: 0.125 is stored as 0.13. *)
Example averageScore_half :
  TeamStats.averageScore
    (computeTeamStats [Player.mk None None None None None (Some 8) (Some 1) None])
  == 13 # 100.
Proof. reflexivity. Qed.

(** *** The top performer *)

Lemma topPerformer_fold (l : list Player.t) :
  TeamStats.topPerformer (computeTeamStats l) = fold_left pickTop (List.filter hasMatch l) None.
Proof.
  destruct l as [|p l]; [reflexivity|].
  rewrite computeTeamStats_nonempty by discriminate. reflexivity.
Qed.

Lemma hasMatch_eligible (p : Player.t) : hasMatch p = true <-> eligible p.
Proof.
  unfold hasMatch, eligible. rewrite gt_iff. now rewrite num_or_orZero.
Qed.

Lemma pickTop_better (b c : Player.t) :
  avg b < avg c -> pickTop (Some b) c = Some c.
Proof.
  intros H. unfold pickTop, avg in *.
  rewrite <- !num_or_orZero in H. apply gt_iff in H. now rewrite H.
Qed.

Lemma pickTop_not_better (b c : Player.t) :
  avg c <= avg b -> pickTop (Some b) c = Some b.
Proof.
  intros H. unfold pickTop, avg in *.
  rewrite <- !num_or_orZero in H. apply gt_false_iff in H. now rewrite H.
Qed.

(** What the fold over the candidates returns. *)
Lemma fold_pickTop (l : list Player.t) :
  match fold_left pickTop l None with
  | None => l = []
  | Some p => first_max l p
  end.
Proof.
  induction l as [|c l IH] using rev_ind; [reflexivity|].
  rewrite fold_left_app. simpl.
  destruct (fold_left pickTop l None) as [b|].
  - destruct IH as (l1 & l2 & -> & Hlt & Hle).
    destruct (Qlt_le_dec (avg b) (avg c)) as [Hbc|Hcb].
    + rewrite pickTop_better by assumption.
      exists ((l1 ++ b :: l2)), []. split; [reflexivity|]. split.
      * intros q Hq. apply in_app_or in Hq as [Hq|[<-|Hq]].
        -- apply Qlt_trans with (avg b); auto.
        -- assumption.
        -- apply Qle_lt_trans with (avg b); auto.
      * intros q [].
    + rewrite pickTop_not_better by assumption.
      exists l1, (l2 ++ [c]). split; [now rewrite <- app_assoc|]. split.
      * assumption.
      * intros q Hq. apply in_app_or in Hq as [Hq|[<-|[]]]; auto.
  - subst l. simpl. exists [], []. repeat split; intros q [].
Qed.

Lemma filter_split {A} (f : A -> bool) (l m1 m2 : list A) (x : A) :
  List.filter f l = m1 ++ x :: m2 ->
  exists l1 l2, l = l1 ++ x :: l2 /\ List.filter f l1 = m1 /\ List.filter f l2 = m2.
Proof.
  revert m1. induction l as [|a l IH]; intros m1 H; simpl in H.
  - destruct m1; discriminate.
  - destruct (f a) eqn:Fa.
    + destruct m1 as [|b m1]; simpl in H; injection H as <- H.
      * exists [], l. simpl. auto.
      * destruct (IH _ H) as (l1 & l2 & -> & H1 & H2).
        exists (a :: l1), l2. simpl. rewrite Fa, H1. auto.
    + destruct (IH _ H) as (l1 & l2 & -> & H1 & H2).
      exists (a :: l1), l2. simpl. rewrite Fa. auto.
Qed.

(** C2. The top performer is the result of folding, from left to right, over
    the records with a positive match count; a candidate replaces the current
    best exactly when its average score (a missing one counting 0) is
    strictly greater, so the selected record stands before every record with a
    match that ties with it and no record with a match beats it; it is absent
    if and only if no record has a positive match count. *)
Theorem topPerformer_first_best (roster : list Player.t) :
  TeamStats.topPerformer (computeTeamStats roster)
  = fold_left pickTop (List.filter hasMatch roster) None
  /\ (forall best cand,
        (avg best < avg cand -> pickTop (Some best) cand = Some cand) /\
        (avg cand <= avg best -> pickTop (Some best) cand = Some best))
  /\ (forall p, TeamStats.topPerformer (computeTeamStats roster) = Some p ->
        first_best roster p)
  /\ (TeamStats.topPerformer (computeTeamStats roster) = None <->
      forall p, In p roster -> ~ eligible p).
Proof.
  split; [apply topPerformer_fold|].
  split; [intros b c; split; [apply pickTop_better|apply pickTop_not_better]|].
  rewrite topPerformer_fold.
  pose proof (fold_pickTop (List.filter hasMatch roster)) as H.
  destruct (fold_left pickTop (List.filter hasMatch roster) None) as [b|]; split.
  - intros p [= <-]. destruct H as (m1 & m2 & Hsplit & Hlt & Hle).
    assert (Hb : In b (List.filter hasMatch roster)).
    { rewrite Hsplit. apply in_or_app. right. now left. }
    apply filter_In in Hb as [_ Hb]. apply hasMatch_eligible in Hb.
    destruct (filter_split _ _ _ _ _ Hsplit) as (l1 & l2 & -> & H1 & H2).
    exists l1, l2. repeat split; try assumption.
    + intros q Hq Hel. apply Hlt. rewrite <- H1. apply filter_In.
      split; [assumption|now apply hasMatch_eligible].
    + intros q Hq Hel. apply Hle. rewrite <- H2. apply filter_In.
      split; [assumption|now apply hasMatch_eligible].
  - split; [discriminate|]. intros Hnone. exfalso.
    destruct H as (m1 & m2 & Hsplit & _).
    assert (Hb : In b (List.filter hasMatch roster)).
    { rewrite Hsplit. apply in_or_app. right. now left. }
    apply filter_In in Hb as [Hin Hb]. apply hasMatch_eligible in Hb.
    exact (Hnone b Hin Hb).
  - discriminate.
  - split; [|reflexivity]. intros _ p Hin Hel.
    assert (Hp : In p (List.filter hasMatch roster)).
    { apply filter_In. split; [assumption|now apply hasMatch_eligible]. }
    rewrite H in Hp. destruct Hp.
Qed.

(** Two records with a match and the same average: the earlier one is kept. *)
Example topPerformer_tie :
  let a := Player.mk None (Some "A") None None None (Some 2) (Some 150) (Some 75) in
  let b := Player.mk None (Some "B") None None None (Some 4) (Some 300) (Some 75) in
  TeamStats.topPerformer (computeTeamStats [a; b]) = Some a
  /\ TeamStats.topPerformer (computeTeamStats [b; a]) = Some b.
Proof. split; reflexivity. Qed.

(** *** Records without a match *)






(** The same happens to a partial record whose match count is missing. *)
Example missing_matchCount_weighs :
  let stray := Player.mk None (Some "B") None None None None (Some 50) None in
  let a := Player.mk None (Some "A") None None None (Some 2) (Some 150) (Some 75) in
  TeamStats.averageScore (computeTeamStats [a; stray]) == 100.
Proof. reflexivity. Qed.

End Aggregation.

(** ** The stored average in double precision *)

Module DoubleFacts.
Import Floats Double DoubleSpec DoubleExamples.
Local Open Scope float_scope.

(** *** The sign of a rounded result *)







(** *** The two sums *)

Lemma Prim2SF_zero : Prim2SF 0 = S754_zero false.
Proof. reflexivity. Qed.








(** *** The guard and the rounding *)

Lemma gt_zero_clear (t : number) :
  gt t 0 = true -> sign_clear (Prim2SF t).
Proof.
  unfold gt. rewrite ltb_spec, Prim2SF_zero. unfold SFltb.
  destruct (Prim2SF t) as [s|s| |s m e]; simpl; intros H;
    try discriminate H; destruct s; simpl in H; try discriminate H; reflexivity.
Qed.









Example averageScore_teamAB :
  TeamStats.averageScore (computeTeamStats teamAB) = 75.
Proof. reflexivity. Qed.

(** Twenty-three points over forty matches: the quotient times 100 is
    57.49999999999999 in double precision, and the stored average is the
    double of 0.57. *)
Example averageScore_23_of_40 :
  (total Player.totalScore team23of40 / total Player.matchCount team23of40 * 100
   <? 115 / 2) = true
  /\ TeamStats.averageScore (computeTeamStats team23of40) = 57 / 100.
Proof. split; reflexivity. Qed.

(** No match and a total score of 50: the quotient, which is [Infinity], is
    not computed, and the stored average is 0. *)
Example averageScore_no_match :
  (total Player.matchCount teamNoMatch =? 0) = true
  /\ total Player.totalScore teamNoMatch / total Player.matchCount teamNoMatch
     = infinity
  /\ TeamStats.averageScore (computeTeamStats teamNoMatch) = 0.
Proof. repeat split. Qed.

(** Outside the data model the two roundings part: one point lost over eight
    matches is -0.125, which [Math.round] stores as -0.12 and rounding half
    away from zero makes -0.13. *)
Example averageScore_negative_total :
  ~ Forall meets_data_model teamDebt
  /\ TeamStats.averageScore (computeTeamStats teamDebt) = -12 / 100
  /\ round2 (total Player.totalScore teamDebt / total Player.matchCount teamDebt)
     = -13 / 100.
Proof.
  split; [|split; reflexivity].
  intros H. inversion H as [|p l [_ Hs] _]. discriminate Hs.
Qed.

End DoubleFacts.

(** ** The status of a score *)

Module Classification.
Import JS JSFacts CoachDashboard Spec.
Local Open Scope Q_scope.

Lemma status_excellent (score : number) :
  80 <= score -> getPerformanceStatus score = "Excellent"%string.
Proof.
  intros H. unfold getPerformanceStatus. apply ge_iff in H. now rewrite H.
Qed.

Lemma status_good (score : number) :
  60 <= score -> score < 80 -> getPerformanceStatus score = "Good"%string.
Proof.
  intros H1 H2. unfold getPerformanceStatus.
  apply ge_iff in H1. apply ge_false_iff in H2. now rewrite H2, H1.
Qed.

Lemma status_needs_improvement (score : number) :
  score < 60 -> getPerformanceStatus score = "Needs Improvement"%string.
Proof.
  intros H. unfold getPerformanceStatus.
  assert (H' : score < 80) by (apply Qlt_trans with 60; [assumption|reflexivity]).
  apply ge_false_iff in H, H'. now rewrite H', H.
Qed.

Lemma status_of_tier (score : number) (t : tier) :
  has_tier score t -> getPerformanceStatus score = displayLabel t.
Proof.
  intros [H|H1 H2|H]; simpl.
  - now apply status_excellent.
  - now apply status_good.
  - now apply status_needs_improvement.
Qed.

Lemma tier_exists (score : number) : exists t, has_tier score t.
Proof.
  destruct (Qlt_le_dec score 60) as [H|H].
  - exists needs_improvement. now constructor.
  - destruct (Qlt_le_dec score 80) as [H'|H'].
    + exists good. now constructor.
    + exists excellent. now constructor.
Qed.

Lemma displayLabel_inj (t1 t2 : tier) : displayLabel t1 = displayLabel t2 -> t1 = t2.
Proof. destruct t1, t2; simpl; intros H; congruence. Qed.

Lemma tier_iff_status (score : number) (t : tier) :
  has_tier score t <-> getPerformanceStatus score = displayLabel t.
Proof.
  split; [apply status_of_tier|]. intros H.
  destruct (tier_exists score) as [t' Ht'].
  rewrite (status_of_tier _ _ Ht') in H. apply displayLabel_inj in H.
  subst t'. exact Ht'.
Qed.

#[export] Instance getPerformanceStatus_comp : Proper (Qeq ==> eq) getPerformanceStatus.
Proof.
  intros x y Hxy. unfold getPerformanceStatus, ge.
  now rewrite (Qleb_comp 80 80 (Qeq_refl _) x y Hxy), (Qleb_comp 60 60 (Qeq_refl _) x y Hxy).
Qed.

End Classification.

(** ** The exported report *)

Module Report.
Import JS JSFacts CoachDashboard Spec CSV Examples.
Local Open Scope string_scope.
#[local] Arguments String.append !s1 s2 : simpl nomatch.

Lemma prefix_empty (s : string) : String.prefix EmptyString s = true.
Proof. now destruct s. Qed.

Lemma includes_char_cons (c a : ascii) (s : string) :
  includes (String a s) (str c) = Ascii.eqb a c || includes s (str c).
Proof.
  simpl. destruct (ascii_dec c a) as [->|Hne].
  - now rewrite prefix_empty, Ascii.eqb_refl.
  - assert (E : Ascii.eqb a c = false) by (apply Ascii.eqb_neq; congruence).
    now rewrite E.
Qed.

Lemma includes_char_empty (c : ascii) : includes EmptyString (str c) = false.
Proof. reflexivity. Qed.

(** [includes] with a one-character argument decides occurrence. *)
Lemma includes_char_occurs (c : ascii) (s : string) :
  includes s (str c) = true <-> occurs c s.
Proof.
  induction s as [|a s IH].
  - rewrite includes_char_empty. split; [discriminate|].
    intros ([|b s1] & s2 & H); discriminate H.
  - rewrite includes_char_cons, orb_true_iff, IH, Ascii.eqb_eq. split.
    + intros [->|(s1 & s2 & ->)].
      * now exists EmptyString, s.
      * now exists (String a s1), s2.
    + intros ([|b s1] & s2 & H); simpl in H; injection H as -> ->.
      * now left.
      * right. now exists s1, s2.
Qed.

Lemma mustQuote_iff (s : string) : mustQuote s = true <-> needs_quotes s.
Proof.
  unfold mustQuote, needs_quotes.
  rewrite !orb_true_iff, !includes_char_occurs. tauto.
Qed.

Lemma mustQuote_cons (a : ascii) (s : string) :
  mustQuote (String a s) =
  (Ascii.eqb a comma || Ascii.eqb a dquote || Ascii.eqb a newline) || mustQuote s.
Proof.
  unfold mustQuote. rewrite !includes_char_cons.
  destruct (Ascii.eqb a comma), (Ascii.eqb a dquote), (Ascii.eqb a newline),
    (includes s (str comma)), (includes s (str dquote)); reflexivity.
Qed.

Lemma replace_all_doubleQuotes (s : string) :
  replace_all dquote (str dquote ++ str dquote) s = doubleQuotes s.
Proof.
  unfold doubleQuotes. induction s as [|a s IH]; simpl in *; [reflexivity|].
  rewrite IH. now destruct (Ascii.eqb a dquote).
Qed.

Section Roundtrip.
Variable Number_toString : Q -> string.

Abbreviation escapeCell := (escapeCell Number_toString).
Abbreviation String_ := (String_ Number_toString).
Abbreviation csvLine := (csvLine Number_toString).

Lemma escapeCell_quoted (cell : Cell) :
  needs_quotes (String_ cell) -> escapeCell cell = quoted (String_ cell).
Proof.
  intros H. apply mustQuote_iff in H. unfold escapeCell, quoted.
  fold (mustQuote (String_ cell)). now rewrite H, replace_all_doubleQuotes.
Qed.

Lemma escapeCell_verbatim (cell : Cell) :
  ~ needs_quotes (String_ cell) -> escapeCell cell = String_ cell.
Proof.
  intros H. rewrite <- mustQuote_iff in H. apply not_true_is_false in H.
  unfold escapeCell. fold (mustQuote (String_ cell)). now rewrite H.
Qed.

(** *** Reading back what was written *)

Lemma parse_plain_run (row : list string) (rest s cell : string) :
  mustQuote s = false ->
  parse Plain cell row (s ++ rest) = parse Plain (cell ++ s) row rest.
Proof.
  revert cell. induction s as [|a s IH]; intros cell H; simpl.
  - now rewrite str_app_nil_r.
  - rewrite mustQuote_cons in H. apply orb_false_iff in H as [Ha Hs].
    apply orb_false_iff in Ha as [Ha Hn]. apply orb_false_iff in Ha as [Hc Hq].
    rewrite Hq, Hc, Hn. simpl. rewrite IH by assumption.
    now rewrite str_app_assoc.
Qed.

Lemma parse_quoted_run (row : list string) (rest s cell : string) :
  parse Quoted cell row
        (replace_all dquote (str dquote ++ str dquote) s ++ String dquote rest)
  = parse Closing (cell ++ s) row rest.
Proof.
  revert cell. induction s as [|a s IH]; intros cell; simpl.
  - now rewrite str_app_nil_r.
  - destruct (Ascii.eqb a dquote) eqn:E; simpl.
    + apply Ascii.eqb_eq in E. subst a. rewrite IH. now rewrite str_app_assoc.
    + rewrite E, IH. now rewrite str_app_assoc.
Qed.

Lemma parse_closing_delimited (cell : string) (row : list string) (rest : string) :
  delimited rest -> parse Closing cell row rest = parse Plain cell row rest.
Proof.
  destruct rest as [|c rest]; simpl; [reflexivity|].
  now intros [->| ->].
Qed.

Lemma parse_cell (cell : Cell) (row : list string) (rest : string) :
  delimited rest ->
  parse Plain EmptyString row (escapeCell cell ++ rest)
  = parse Plain (String_ cell) row rest.
Proof.
  intros Hd. unfold escapeCell. fold (mustQuote (String_ cell)).
  destruct (mustQuote (String_ cell)) eqn:E.
  - rewrite !str_app_assoc. simpl.
    rewrite parse_quoted_run. simpl. now apply parse_closing_delimited.
  - now rewrite parse_plain_run.
Qed.

Lemma join_one (sep x : string) : join sep [x] = x.
Proof. reflexivity. Qed.

Lemma join_cons (sep x y : string) (l : list string) :
  join sep (x :: y :: l) = x ++ sep ++ join sep (y :: l).
Proof. reflexivity. Qed.

Lemma csvLine_one (c : Cell) : csvLine [c] = escapeCell c.
Proof. reflexivity. Qed.

Lemma csvLine_cons (c c2 : Cell) (cells : list Cell) :
  csvLine (c :: c2 :: cells) = escapeCell c ++ String comma (csvLine (c2 :: cells)).
Proof. reflexivity. Qed.

Lemma parse_row_end (cells : list Cell) (row : list string) :
  cells <> [] ->
  parse Plain EmptyString row (csvLine cells)
  = [(row ++ map String_ cells)%list].
Proof.
  revert row. induction cells as [|c cells IH]; intros row Hne; [contradiction|].
  destruct cells as [|c2 cells].
  - rewrite csvLine_one, <- (str_app_nil_r (escapeCell c)).
    now rewrite parse_cell.
  - rewrite csvLine_cons, parse_cell by now left.
    cbn [parse]. cbn [Ascii.eqb Bool.eqb comma dquote andb].
    rewrite IH by discriminate. cbn [map]. now rewrite <- List.app_assoc.
Qed.

Lemma parse_row_newline (cells : list Cell) (row : list string) (rest : string) :
  cells <> [] ->
  parse Plain EmptyString row (csvLine cells ++ String newline rest)
  = (row ++ map String_ cells)%list :: parse Plain EmptyString [] rest.
Proof.
  revert row. induction cells as [|c cells IH]; intros row Hne; [contradiction|].
  destruct cells as [|c2 cells].
  - rewrite csvLine_one, parse_cell by now right. reflexivity.
  - rewrite csvLine_cons, str_app_assoc, parse_cell by now left.
    cbn [parse String.append]. cbn [Ascii.eqb Bool.eqb comma dquote andb].
    rewrite IH by discriminate. cbn [map]. now rewrite <- List.app_assoc.
Qed.

(** Reading a written table gives back the strings of its cells. *)
Lemma parse_rows (rows : list (list Cell)) :
  rows <> [] ->
  Forall (fun r => r <> []) rows ->
  parseCSV (join (str newline) (map csvLine rows)) = map (map String_) rows.
Proof.
  unfold parseCSV.
  induction rows as [|r rows IH]; intros Hne Hall; [contradiction|].
  inversion Hall as [|? ? Hr Hrows]; subst.
  destruct rows as [|r2 rows].
  - cbn [map]. rewrite join_one. now rewrite parse_row_end.
  - cbn [map] in *. rewrite join_cons.
    change (str newline ++ ?x) with (String newline x).
    rewrite parse_row_newline by assumption.
    rewrite IH by (assumption || discriminate). reflexivity.
Qed.

End Roundtrip.

Lemma allRows_not_empty (N : Q -> string) (userData : option UserData.t)
    (localeDate : string) (st : State) :
  allRows N userData localeDate st <> []
  /\ Forall (fun r => r <> []) (allRows N userData localeDate st).
Proof.
  split; [discriminate|].
  unfold allRows, summaryRows. cbn [List.app].
  repeat (apply List.Forall_cons; [discriminate|]).
  apply List.Forall_forall. intros r Hr. apply List.in_map_iff in Hr as (p & <- & _).
  discriminate.
Qed.

(** The report reads back as the strings of [allRows]. *)
Lemma report_reads_back (N : Q -> string) (userData : option UserData.t)
    (localeDate : string) (st : State) :
  parseCSV (handleExportReport N userData localeDate st)
  = map (map (String_ N)) (allRows N userData localeDate st).
Proof.
  unfold handleExportReport.
  destruct (allRows_not_empty N userData localeDate st) as [Hne Hall].
  now apply parse_rows.
Qed.

Lemma playerRow_texts (N : Q -> string) (player : Player.t) :
  map (String_ N) (playerRow player) = dataRowTexts N player.
Proof.
  unfold playerRow, dataRowTexts. cbn [map String_].
  rewrite (Classification.getPerformanceStatus_comp _ _
             (num_or_zero (Player.currentScore player))).
  unfold str_or.
  destruct (Player.name player) as [[|? ?]|], (Player.email player) as [[|? ?]|],
    (Player.sport player) as [[|? ?]|]; reflexivity.
Qed.

Lemma report_reads_as_texts (N : Q -> string) (userData : option UserData.t)
    (localeDate : string) (st : State) :
  parseCSV (handleExportReport N userData localeDate st)
  = reportTexts N userData localeDate st.
Proof.
  rewrite report_reads_back. unfold allRows, summaryRows, reportTexts.
  rewrite !map_app, map_map. cbn [map String_ List.app headers].
  now rewrite (map_ext _ _ (playerRow_texts N)).
Qed.

(** C4. A cell is written as its string form wrapped in double quotes, with
    every double quote inside doubled, if and only if a comma, a double quote
    or a newline occurs in the string form; otherwise it is written verbatim.
    Cells of a row are joined by one comma and rows by one newline, so that the
    text reads back as the table of string forms.  A name with a comma leads
    its data row in double quotes, and the name [nameHeSaidHi] is written with
    its two quotes doubled, between two more. *)
Theorem cells_escaped (N : Q -> string) :
  (forall cell, needs_quotes (String_ N cell) ->
     escapeCell N cell = str dquote ++ doubleQuotes (String_ N cell) ++ str dquote)
  /\ (forall cell, ~ needs_quotes (String_ N cell) ->
       escapeCell N cell = String_ N cell)
  /\ (forall userData localeDate st,
       handleExportReport N userData localeDate st
       = String.concat (str newline)
           (map (fun row => String.concat (str comma) (map (escapeCell N) row))
                (allRows N userData localeDate st))
       /\ parseCSV (handleExportReport N userData localeDate st)
         = map (map (String_ N)) (allRows N userData localeDate st))
  /\ (forall player, Player.name player = Some nameDoeJohn ->
       exists rest,
         csvLine N (playerRow player)
         = str dquote ++ nameDoeJohn ++ str dquote ++ str comma ++ rest)
  /\ (forall player, Player.name player = Some nameHeSaidHi ->
       exists rest,
         csvLine N (playerRow player)
         = str dquote ++ "He said " ++ str dquote ++ str dquote ++ "hi"
           ++ str dquote ++ str dquote ++ str dquote ++ str comma ++ rest).
Proof.
  split; [exact (escapeCell_quoted N)|].
  split; [exact (escapeCell_verbatim N)|].
  split.
  { intros userData localeDate st. split; [reflexivity|apply report_reads_back]. }
  split; intros player Hname; unfold playerRow; rewrite Hname, csvLine_cons;
    eexists; reflexivity.
Qed.

(** C5. Whatever the summary, the roster and the metadata, the report reads
    back as: the title row, the coach-name row, the report-date row, a blank
    row, the Team Statistics header, the four statistics rows, a blank row,
    the Player Details header, the column header and one data row per record
    in the order of the roster; the cells of the column-header row are exactly
    Player Name, Email, Sport, Current Score (%), Performance Status,
    Total Matches, Average Score. *)
Theorem report_layout (N : Q -> string) (userData : option UserData.t)
    (localeDate : string) (st : State) :
  parseCSV (handleExportReport N userData localeDate st)
  = ([ ["Team Performance Report"];
       ["Coach Name"; str_or (userName userData) EmptyString];
       ["Report Date"; localeDate];
       [EmptyString];
       ["Team Statistics"];
       ["Total Players"; N (TeamStats.totalPlayers (teamStats st))];
       ["Team Average Score";
      (N (TeamStats.averageScore (teamStats st)) ++ "%")%string];
       ["Total Matches"; N (TeamStats.totalMatches (teamStats st))];
       ["Top Performer"; str_or (topPerformerName (teamStats st)) "N/A"];
       [EmptyString];
       ["Player Details"];
       ["Player Name"; "Email"; "Sport"; "Current Score (%)"; "Performance Status";
        "Total Matches"; "Average Score"] ]
     ++ map (dataRowTexts N) (players st))%list
  /\ nth_error (parseCSV (handleExportReport N userData localeDate st)) 11
     = Some ["Player Name"; "Email"; "Sport"; "Current Score (%)";
             "Performance Status"; "Total Matches"; "Average Score"].
Proof.
  rewrite report_reads_as_texts. split; reflexivity.
Qed.

(** C6. The status of a score is Excellent from 80 upwards, Good from 60
    inclusive to 80 exclusive and Needs Improvement below 60, with no
    clamping of negative scores or of scores above 100; and the data row of a
    record carries, in its fifth cell, the status of the record's current
    score, a missing score counting 0. *)
Theorem status_thresholds (N : Q -> string) :
  (forall score t, has_tier score t <-> getPerformanceStatus score = displayLabel t)
  /\ getPerformanceStatus (-5) = displayLabel needs_improvement
  /\ getPerformanceStatus 150 = displayLabel excellent
  /\ (forall userData localeDate st i player,
       nth_error (players st) i = Some player ->
       exists row,
         nth_error (parseCSV (handleExportReport N userData localeDate st)) (12 + i)
         = Some row
         /\ nth_error row 4
            = Some (getPerformanceStatus (orZero (Player.currentScore player)))).
Proof.
  split; [exact Classification.tier_iff_status|].
  split; [reflexivity|]. split; [reflexivity|].
  intros userData localeDate st i player Hi.
  exists (dataRowTexts N player). split; [|reflexivity].
  rewrite report_reads_as_texts. unfold reportTexts.
  cbn [List.app Nat.add nth_error].
  now rewrite nth_error_map, Hi.
Qed.

End Report.

(** ** Matching by derivatives *)

Module RegExpFacts.
Import JS JSFacts RegExp Spec.
Local Open Scope string_scope.
#[local] Arguments String.append !s1 s2 : simpl nomatch.

Lemma str_app_empty (s1 s2 : string) :
  s1 ++ s2 = EmptyString -> s1 = EmptyString /\ s2 = EmptyString.
Proof. destruct s1; simpl; [auto|discriminate]. Qed.

Lemma matches_cat_inv (r1 r2 : regex) (s : string) :
  matches (Cat r1 r2) s ->
  exists s1 s2, s = s1 ++ s2 /\ matches r1 s1 /\ matches r2 s2.
Proof.
  intros H. inversion H; subst. eexists _, _. eauto.
Qed.

Lemma nullable_matches (r : regex) : nullable r = true <-> matches r EmptyString.
Proof.
  induction r as [| |f|r1 IH1 r2 IH2|r1 IH1 r2 IH2|r IH]; simpl.
  - split; [discriminate|]. intros H. inversion H.
  - split; [constructor|reflexivity].
  - split; [discriminate|]. intros H. inversion H.
  - rewrite andb_true_iff, IH1, IH2. split.
    + intros [H1 H2]. exact (matches_cat _ _ _ _ H1 H2).
    + intros H. apply matches_cat_inv in H as (s1 & s2 & E & H1 & H2).
      symmetry in E. apply str_app_empty in E as [-> ->]. auto.
  - rewrite orb_true_iff, IH1, IH2. split.
    + intros [H|H]; [now apply matches_alt_l|now apply matches_alt_r].
    + intros H. inversion H; subst; auto.
  - split; [constructor|reflexivity].
Qed.

(** A non-empty word of an iteration starts with a non-empty word of the
    iterated pattern. *)
Lemma matches_star_cons (r : regex) (a : ascii) (s : string) :
  matches (Star r) (String a s) ->
  exists s1 s2, s = s1 ++ s2 /\ matches r (String a s1) /\ matches (Star r) s2.
Proof.
  intros H. remember (Star r) as r' eqn:Er. remember (String a s) as w eqn:Ew.
  revert Er Ew.
  induction H as [| | | | | |r0 s1 s2 H1 _ H2 IH2]; intros Er Ew; try discriminate.
  injection Er as ->.
  destruct s1 as [|b s1]; simpl in Ew.
  - now apply IH2.
  - injection Ew as -> <-. now exists s1, s2.
Qed.

Lemma deriv_matches (r : regex) (a : ascii) (s : string) :
  matches (deriv a r) s <-> matches r (String a s).
Proof.
  revert s. induction r as [| |f|r1 IH1 r2 IH2|r1 IH1 r2 IH2|r IH]; intros s; simpl.
  - split; intros H; inversion H.
  - split; intros H; inversion H.
  - destruct (f a) eqn:E; split; intros H.
    + inversion H; subst. now apply (matches_class f a).
    + inversion H; subst. constructor.
    + inversion H.
    + inversion H; subst. congruence.
  - assert (Hcat : matches (Cat (deriv a r1) r2) s ->
                   matches (Cat r1 r2) (String a s)).
    { intros H. apply matches_cat_inv in H as (s1 & s2 & -> & H1 & H2).
      apply IH1 in H1. exact (matches_cat _ _ _ _ H1 H2). }
    assert (Hinv : matches (Cat r1 r2) (String a s) ->
                   matches (Cat (deriv a r1) r2) s
                   \/ (matches r1 EmptyString /\ matches (deriv a r2) s)).
    { intros H. apply matches_cat_inv in H as (s1 & s2 & E & H1 & H2).
      destruct s1 as [|b s1]; simpl in E.
      - right. subst s2. split; [assumption|now apply IH2].
      - injection E as <- ->. left. apply matches_cat; [now apply IH1|assumption]. }
    destruct (nullable r1) eqn:N; split; intros H.
    + inversion H; subst; [now apply Hcat|].
      apply nullable_matches in N.
      change (String a s) with (EmptyString ++ String a s).
      apply matches_cat; [assumption|now apply IH2].
    + destruct (Hinv H) as [H'|[_ H']];
        [now apply matches_alt_l|now apply matches_alt_r].
    + now apply Hcat.
    + destruct (Hinv H) as [H'|[H' _]]; [assumption|].
      apply nullable_matches in H'. congruence.
  - split; intros H; inversion H; subst.
    + apply matches_alt_l. now apply IH1.
    + apply matches_alt_r. now apply IH2.
    + apply matches_alt_l. now apply IH1.
    + apply matches_alt_r. now apply IH2.
  - split; intros H.
    + apply matches_cat_inv in H as (s1 & s2 & -> & H1 & H2).
      apply IH in H1.
      exact (matches_star_app r (String a s1) s2 H1 H2).
    + apply matches_star_cons in H as (s1 & s2 & -> & H1 & H2).
      apply matches_cat; [now apply IH|assumption].
Qed.

(** The matcher decides the words of a pattern. *)
Lemma matchb_matches (r : regex) (s : string) : matchb r s = true <-> matches r s.
Proof.
  revert r. induction s as [|a s IH]; intros r; simpl.
  - apply nullable_matches.
  - rewrite IH. apply deriv_matches.
Qed.

Lemma matches_star_any (s : string) : matches (Star Any) s.
Proof.
  induction s as [|a s IH]; [constructor|].
  change (String a s) with (str a ++ s).
  apply matches_star_app; [now constructor|assumption].
Qed.

(** [test] decides whether a word of the pattern stands somewhere in the
    string. *)
Lemma test_substring (r : regex) (s : string) :
  test r s = true <-> exists m, substring_of m s /\ matches r m.
Proof.
  unfold test. rewrite matchb_matches. split.
  - intros H. apply matches_cat_inv in H as (pre & s' & -> & _ & H').
    apply matches_cat_inv in H' as (m & post & -> & Hm & _).
    exists m. split; [now exists pre, post|assumption].
  - intros (m & (pre & post & ->) & Hm).
    apply matches_cat; [apply matches_star_any|].
    apply matches_cat; [assumption|apply matches_star_any].
Qed.

End RegExpFacts.

(** ** The registration form *)

Module Validation.
Import JS JSFacts RegExp RegExpFacts RegisterForm Spec Examples.
Local Open Scope string_scope.
#[local] Arguments String.append !s1 s2 : simpl nomatch.

(** *** The email pattern *)

Lemma all_nonspace_app (s1 s2 : string) :
  all_nonspace (s1 ++ s2) <-> all_nonspace s1 /\ all_nonspace s2.
Proof.
  induction s1 as [|a s1 IH]; simpl; [tauto|]. rewrite IH. tauto.
Qed.

Lemma matches_class_inv (f : ascii -> bool) (s : string) :
  matches (Class f) s -> exists c, s = str c /\ f c = true.
Proof. intros H. inversion H; subst. eauto. Qed.

Lemma matches_star_nonspace (s : string) :
  matches (Star NonSpace) s <-> all_nonspace s.
Proof.
  split.
  - intros H. remember (Star NonSpace) as r eqn:Er. revert Er.
    induction H as [| | | | | |r0 s1 s2 H1 _ _ IH2]; intros Er; try discriminate.
    + exact I.
    + injection Er as ->. apply all_nonspace_app. split; [|now apply IH2].
      apply matches_class_inv in H1 as (c & -> & Hc).
      apply negb_true_iff in Hc. now split.
  - induction s as [|a s IH]; [constructor|].
    intros [Ha Hs]. change (String a s) with (str a ++ s).
    apply matches_star_app; [|now apply IH].
    constructor. now rewrite Ha.
Qed.

(** [\S+] matches the tokens. *)
Lemma matches_plus_nonspace (s : string) : matches (Plus NonSpace) s <-> token s.
Proof.
  unfold Plus, token. split.
  - intros H. apply matches_cat_inv in H as (s1 & s2 & -> & H1 & H2).
    apply matches_class_inv in H1 as (c & -> & Hc).
    apply negb_true_iff in Hc. apply matches_star_nonspace in H2.
    split; [discriminate|now split].
  - intros [Hne Hs]. destruct s as [|a s]; [contradiction|].
    destruct Hs as [Ha Hs]. change (String a s) with (str a ++ s).
    apply matches_cat; [|now apply matches_star_nonspace].
    constructor. now rewrite Ha.
Qed.

Lemma matches_chr (c : ascii) (s : string) : matches (Chr c) s <-> s = str c.
Proof.
  unfold Chr. split.
  - intros H. apply matches_class_inv in H as (a & -> & Ha).
    apply Ascii.eqb_eq in Ha. now subst.
  - intros ->. constructor. apply Ascii.eqb_refl.
Qed.

(** The words of the pattern are the strings of the shape token@token.token. *)
Lemma matches_emailPattern (s : string) : matches emailPattern s <-> email_shape s.
Proof.
  unfold emailPattern, email_shape. split.
  - intros H.
    apply matches_cat_inv in H as (a & s1 & -> & Ha & H).
    apply matches_cat_inv in H as (at_ & s2 & -> & Hat & H).
    apply matches_cat_inv in H as (b & s3 & -> & Hb & H).
    apply matches_cat_inv in H as (dot & c & -> & Hdot & Hc).
    apply matches_chr in Hat, Hdot. subst.
    apply matches_plus_nonspace in Ha, Hb, Hc.
    now exists a, b, c.
  - intros (a & b & c & Ha & Hb & Hc & ->).
    apply matches_plus_nonspace in Ha, Hb, Hc.
    repeat (apply matches_cat; try assumption); now apply matches_chr.
Qed.

(** The test the form applies to the email. *)
Lemma test_emailPattern (s : string) :
  test emailPattern s = true <-> exists m, substring_of m s /\ email_shape m.
Proof.
  rewrite test_substring. split; intros (m & Hsub & Hm); exists m;
    (split; [assumption|now apply matches_emailPattern]).
Qed.

Lemma email_shape_all_nonspace (s : string) : email_shape s -> all_nonspace s.
Proof.
  intros (a & b & c & [_ Ha] & [_ Hb] & [_ Hc] & ->).
  repeat (apply all_nonspace_app; split); try assumption; now split.
Qed.

Lemma email_shape_substring (s : string) :
  email_shape s -> exists m, substring_of m s /\ email_shape m.
Proof.
  intros H. exists s. split; [|assumption].
  exists EmptyString, EmptyString. simpl. now rewrite str_app_nil_r.
Qed.

(** *** The six rules *)

Lemma validateForm_rules (formData : FormData) :
  validateForm formData =
  report "sport" (sportRule (role formData) (sport formData))
    (report "role" (roleRule (role formData))
       (report "confirmPassword"
          (confirmPasswordRule (password formData) (confirmPassword formData))
          (report "password" (passwordRule (password formData))
             (report "email" (emailRule (email formData))
                (report "name" (nameRule (name formData)) ∅))))).
Proof.
  unfold validateForm, sportRule, roleRule, confirmPasswordRule, passwordRule,
    emailRule, nameRule.
  destruct (is_empty (trim (name formData)));
    [|destruct (String.length (trim (name formData)) <? 2)%nat];
  (destruct (is_empty (trim (email formData)));
    [|destruct (test emailPattern (email formData))]);
  (destruct (is_empty (password formData));
    [|destruct (String.length (password formData) <? 6)%nat]);
  (destruct (is_empty (confirmPassword formData));
    [|destruct (String.eqb (password formData) (confirmPassword formData))]);
  destruct (is_empty (role formData));
  destruct (String.eqb (role formData) "player" && is_empty (sport formData));
  reflexivity.
Qed.

Lemma lookup_report_eq (k : string) (e : option string) (m : gmap string string) :
  report k e m !! k = match e with Some msg => Some msg | None => m !! k end.
Proof. destruct e; simpl; [apply lookup_insert_eq|reflexivity]. Qed.

Lemma lookup_report_ne (k k' : string) (e : option string) (m : gmap string string) :
  k <> k' -> report k e m !! k' = m !! k'.
Proof. intros H. destruct e; simpl; [now apply lookup_insert_ne|reflexivity]. Qed.

Ltac lookup_rule :=
  rewrite validateForm_rules;
  repeat (rewrite lookup_report_ne by discriminate);
  rewrite lookup_report_eq;
  repeat (rewrite lookup_report_ne by discriminate);
  rewrite ?lookup_empty.

Lemma lookup_name (formData : FormData) :
  validateForm formData !! "name" = nameRule (name formData).
Proof. lookup_rule. now destruct (nameRule _). Qed.

Lemma lookup_email (formData : FormData) :
  validateForm formData !! "email" = emailRule (email formData).
Proof. lookup_rule. now destruct (emailRule _). Qed.

Lemma lookup_password (formData : FormData) :
  validateForm formData !! "password" = passwordRule (password formData).
Proof. lookup_rule. now destruct (passwordRule _). Qed.

Lemma lookup_confirmPassword (formData : FormData) :
  validateForm formData !! "confirmPassword"
  = confirmPasswordRule (password formData) (confirmPassword formData).
Proof. lookup_rule. now destruct (confirmPasswordRule _ _). Qed.

Lemma lookup_role (formData : FormData) :
  validateForm formData !! "role" = roleRule (role formData).
Proof. lookup_rule. now destruct (roleRule _). Qed.

Lemma lookup_sport (formData : FormData) :
  validateForm formData !! "sport" = sportRule (role formData) (sport formData).
Proof. lookup_rule. now destruct (sportRule _ _). Qed.

Lemma is_empty_false (s : string) : is_empty s = false <-> s <> EmptyString.
Proof. destruct s; simpl; split; congruence. Qed.

Lemma is_empty_true (s : string) : is_empty s = true <-> s = EmptyString.
Proof. destruct s; simpl; split; congruence. Qed.

Lemma trimStart_all_whitespace (s : string) :
  all_whitespace s -> trimStart s = EmptyString.
Proof.
  induction s as [|a s IH]; simpl; [reflexivity|].
  intros [Ha Hs]. rewrite Ha. now apply IH.
Qed.

Lemma trim_all_whitespace (s : string) : all_whitespace s -> trim s = EmptyString.
Proof. intros H. unfold trim. now rewrite trimStart_all_whitespace. Qed.

(** *** The email *)

(** The form accepts that email, which as a whole does not have the shape. *)
Lemma spaced_email_accepted :
  trim (email candidateSpaced) <> EmptyString
  /\ validateForm candidateSpaced !! "email" = None
  /\ ~ email_shape (email candidateSpaced)
  /\ ~ invalid_iff_not_shaped candidateSpaced.
Proof.
  assert (Hshape : ~ email_shape (email candidateSpaced)).
  { intros H. apply email_shape_all_nonspace in H. simpl in H.
    destruct H as (_ & Hsp & _). discriminate Hsp. }
  split; [discriminate|]. split; [reflexivity|]. split; [assumption|].
  intros [_ H]. specialize (H Hshape). discriminate H.
Qed.

(** C7, as amended. For a candidate whose email is not empty after trimming,
    the form reports the invalid-format error if and only if no part of the
    email has the shape token@token.token: the pattern is searched for in the
    value and need not cover it. *)
Theorem email_invalid_iff_no_shape_inside (formData : FormData) :
  trim (email formData) <> EmptyString ->
  validateForm formData !! "email" = Some email_invalid_format
  <-> ~ exists m, substring_of m (email formData) /\ email_shape m.
Proof.
  intros Hne. apply is_empty_false in Hne.
  rewrite lookup_email. unfold emailRule. rewrite Hne.
  rewrite <- test_emailPattern.
  destruct (test emailPattern (email formData)); split; intros H;
    congruence || reflexivity || (exfalso; now apply H).
Qed.

Lemma email_invalid_iff_no_shape_inside_witness :
  trim (email candidateBad) <> EmptyString
  /\ (validateForm candidateBad !! "email" = Some email_invalid_format
      <-> ~ exists m, substring_of m (email candidateBad) /\ email_shape m).
Proof.
  assert (H : trim (email candidateBad) <> EmptyString) by discriminate.
  exact (conj H (email_invalid_iff_no_shape_inside candidateBad H)).
Defined.

(** An email that has the shape as a whole is never reported invalid. *)
Lemma email_shaped_accepted (formData : FormData) :
  email_shape (email formData) ->
  validateForm formData !! "email" <> Some email_invalid_format.
Proof.
  intros H. rewrite lookup_email. unfold emailRule.
  apply email_shape_substring, test_emailPattern in H. rewrite H.
  destruct (is_empty (trim (email formData))); discriminate.
Qed.

(** *** All the rules together *)

(** C8. The six rules are evaluated independently of one another, and every
    error they raise is in the one result: the entry of each field is the
    verdict of its own rule, whatever the other rules found.  For the
    candidate with name A, email bad, password 123, confirmation 1234, role
    player and no sport, the result holds exactly the errors name too short,
    email invalid, password too short, confirmation mismatch and sport
    required, and none for the role. *)
Theorem all_rules_reported :
  (forall formData,
     validateForm formData !! "name" = nameRule (name formData)
     /\ validateForm formData !! "email" = emailRule (email formData)
     /\ validateForm formData !! "password" = passwordRule (password formData)
     /\ validateForm formData !! "confirmPassword"
        = confirmPasswordRule (password formData) (confirmPassword formData)
     /\ validateForm formData !! "role" = roleRule (role formData)
     /\ validateForm formData !! "sport"
        = sportRule (role formData) (sport formData))
  /\ validateForm candidateBad
     = {[ "name" := name_too_short;
          "email" := email_invalid_format;
          "password" := password_too_short;
          "confirmPassword" := confirmPassword_mismatch;
          "sport" := sport_required ]}
  /\ validateForm candidateBad !! "role" = None
  /\ size (validateForm candidateBad) = 5%nat.
Proof.
  split.
  { intros formData.
    repeat split;
      [apply lookup_name|apply lookup_email|apply lookup_password
      |apply lookup_confirmPassword|apply lookup_role|apply lookup_sport]. }
  split; [|split].
  - apply map_eq. intros k. rewrite validateForm_rules.
    vm_compute. reflexivity.
  - rewrite lookup_role. reflexivity.
  - vm_compute. reflexivity.
Qed.

(** *** The sport *)

(** C9. The form reports that the sport is required if and only if the role
    is player and no sport is set, and reports nothing about the sport for
    any other role; the coach candidate Jane Doe, with no sport, gets an
    empty result. *)
Theorem sport_required_for_player_only :
  (forall formData,
     validateForm formData !! "sport" = Some sport_required
     <-> role formData = "player" /\ sport formData = EmptyString)
  /\ (forall formData,
        is_Some (validateForm formData !! "sport")
        <-> role formData = "player" /\ sport formData = EmptyString)
  /\ (forall formData,
        role formData <> "player" -> validateForm formData !! "sport" = None)
  /\ validateForm candidateCoach = ∅.
Proof.
  assert (Hrule : forall formData,
            sportRule (role formData) (sport formData) = Some sport_required
            <-> role formData = "player" /\ sport formData = EmptyString).
  { intros formData. unfold sportRule.
    rewrite <- String.eqb_eq, <- is_empty_true, <- andb_true_iff.
    destruct (String.eqb (role formData) "player" && is_empty (sport formData));
      split; congruence. }
  split; [|split; [|split]].
  - intros formData. rewrite lookup_sport. apply Hrule.
  - intros formData. rewrite <- Hrule, lookup_sport. unfold sportRule.
    destruct (String.eqb (role formData) "player" && is_empty (sport formData)).
    + split; intros _; [reflexivity|]. now exists sport_required.
    + split; intros H; [|discriminate H]. destruct H as [x Hx]. discriminate Hx.
  - intros formData Hrole. rewrite lookup_sport. unfold sportRule.
    apply String.eqb_neq in Hrole. now rewrite Hrole.
  - reflexivity.
Qed.

(** *** The password *)

(** C10. The password fields are not trimmed: when the password has at least
    6 characters, all of them white space, and the confirmation is identical
    to it, the form reports no error for the password and none for the
    confirmation; the same string as a name or as an email is reported as
    missing, those two being trimmed first. *)
Theorem password_not_trimmed (formData : FormData) :
  all_whitespace (password formData) ->
  (6 <= String.length (password formData))%nat ->
  confirmPassword formData = password formData ->
  validateForm formData !! "password" = None
  /\ validateForm formData !! "confirmPassword" = None
  /\ (name formData = password formData ->
      validateForm formData !! "name" = Some name_required)
  /\ (email formData = password formData ->
      validateForm formData !! "email" = Some email_required).
Proof.
  intros Hws Hlen Hconfirm.
  assert (Hne : is_empty (password formData) = false).
  { destruct (password formData); [simpl in Hlen; lia|reflexivity]. }
  split; [|split; [|split]].
  - rewrite lookup_password. unfold passwordRule. rewrite Hne.
    apply Nat.ltb_ge in Hlen. now rewrite Hlen.
  - rewrite lookup_confirmPassword, Hconfirm. unfold confirmPasswordRule.
    now rewrite Hne, String.eqb_refl.
  - intros Hname. rewrite lookup_name, Hname. unfold nameRule.
    now rewrite trim_all_whitespace.
  - intros Hemail. rewrite lookup_email, Hemail. unfold emailRule.
    now rewrite trim_all_whitespace.
Qed.

Lemma password_not_trimmed_witness :
  all_whitespace (password candidateBlank)
  /\ (6 <= String.length (password candidateBlank))%nat
  /\ confirmPassword candidateBlank = password candidateBlank
  /\ validateForm candidateBlank !! "password" = None
  /\ validateForm candidateBlank !! "confirmPassword" = None
  /\ validateForm candidateBlank !! "name" = Some name_required
  /\ validateForm candidateBlank !! "email" = Some email_required.
Proof.
  assert (Hws : all_whitespace (password candidateBlank)).
  { simpl. repeat split. }
  assert (Hlen : (6 <= String.length (password candidateBlank))%nat).
  { simpl. lia. }
  assert (Hconfirm : confirmPassword candidateBlank = password candidateBlank).
  { reflexivity. }
  destruct (password_not_trimmed candidateBlank Hws Hlen Hconfirm)
    as (Hp & Hc & Hn & He).
  exact (conj Hws (conj Hlen (conj Hconfirm
           (conj Hp (conj Hc (conj (Hn eq_refl) (He eq_refl))))))).
Defined.

End Validation.

(** ** More on the dashboard *)

Module DashboardFacts.
Import JS JSFacts CoachDashboard Spec CSV Examples.
Local Open Scope Q_scope.

(** *** Records without a match, again *)




(** *** The three displays of a score *)

(** The colour of the score, the dot beside it and the status under it are
    those of one and the same tier, the tier of the player's current score
    (a missing score counting 0). *)
Theorem score_displays_agree (player : Player.t) :
  exists t,
    has_tier (orZero (Player.currentScore player)) t
    /\ getPerformanceColor (num_or (Player.currentScore player) 0) = tierTextClass t
    /\ scoreDotClass player = tierDotClass t
    /\ getPerformanceStatus (num_or (Player.currentScore player) 0) = displayLabel t.
Proof.
  unfold getPerformanceColor, scoreDotClass, getPerformanceStatus.
  destruct (ge (num_or (Player.currentScore player) 0) 80) eqn:E80.
  - exists excellent. repeat split. constructor.
    apply ge_iff in E80. now rewrite Aggregation.num_or_orZero in E80.
  - destruct (ge (num_or (Player.currentScore player) 0) 60) eqn:E60.
    + exists good. repeat split. apply ge_iff in E60. apply ge_false_iff in E80.
      rewrite Aggregation.num_or_orZero in E60, E80. now constructor.
    + exists needs_improvement. repeat split. apply ge_false_iff in E60.
      rewrite Aggregation.num_or_orZero in E60. now constructor.
Qed.

(** *** The report of a loaded dashboard *)

Lemma reportTexts_length (N : Q -> string) (userData : option UserData.t)
    (localeDate : string) (st : State) :
  List.length (reportTexts N userData localeDate st)
  = (12 + List.length (players st))%nat.
Proof.
  unfold reportTexts. rewrite List.length_app, List.length_map. reflexivity.
Qed.

(** After a load, the report has twelve rows and one more for each player
    fetched, its Total Players row gives the number of those rows, and each of
    them has seven cells, as the column header has, whatever the texts of the
    players contain. *)
Theorem report_after_load (N : Q -> string) (userData : option UserData.t)
    (localeDate : string) (playersData : list Player.t) (st : State) :
  let rows :=
    parseCSV (handleExportReport N userData localeDate
                (loadDashboardData playersData st)) in
  List.length rows = (12 + List.length playersData)%nat
  /\ nth_error rows 5
     = Some ["Total Players"%string;
             N (inject_Z (Z.of_nat (List.length playersData)))]
  /\ (forall i row, nth_error rows (12 + i) = Some row -> List.length row = 7%nat).
Proof.
  cbv zeta. rewrite Report.report_reads_as_texts.
  split; [apply reportTexts_length|]. split.
  - destruct playersData; reflexivity.
  - intros i row. unfold reportTexts. cbn [List.app Nat.add nth_error].
    rewrite nth_error_map.
    destruct (nth_error (players (loadDashboardData playersData st)) i);
      [|discriminate].
    intros [= <-]. reflexivity.
Qed.

(** The Top Performer row of the report names the top performer; it says N/A
    when there is none, and also when the top performer has no name or an
    empty one, where the card of the dashboard shows the name as it is. *)
Theorem topPerformer_row (N : Q -> string) (userData : option UserData.t)
    (localeDate : string) (st : State) :
  exists cell,
    nth_error (parseCSV (handleExportReport N userData localeDate st)) 8
    = Some ["Top Performer"%string; cell]
    /\ (TeamStats.topPerformer (teamStats st) = None ->
        cell = "N/A"%string /\ topPerformerCard (teamStats st) = Some "N/A"%string)
    /\ (forall p a n,
          TeamStats.topPerformer (teamStats st) = Some p ->
          Player.name p = Some (String a n) ->
          cell = String a n /\ topPerformerCard (teamStats st) = Some (String a n))
    /\ (forall p,
          TeamStats.topPerformer (teamStats st) = Some p ->
          Player.name p = None \/ Player.name p = Some EmptyString ->
          cell = "N/A"%string /\ topPerformerCard (teamStats st) = Player.name p).
Proof.
  eexists. rewrite Report.report_reads_as_texts.
  split; [reflexivity|].
  unfold topPerformerName, topPerformerCard.
  split; [|split].
  - intros ->. split; reflexivity.
  - intros p a n -> ->. split; reflexivity.
  - intros p -> [-> | ->]; split; reflexivity.
Qed.

(** *** The name of the file *)

Lemma beforeFirst_app (c : ascii) (s rest : string) :
  ~ occurs c s -> beforeFirst c (s ++ String c rest)%string = s.
Proof.
  induction s as [|a s IH]; intros H; simpl.
  - now rewrite Ascii.eqb_refl.
  - destruct (Ascii.eqb a c) eqn:E.
    + apply Ascii.eqb_eq in E. subst a. exfalso. apply H.
      now exists EmptyString, s.
    + rewrite IH; [reflexivity|].
      intros (s1 & s2 & ->). apply H. now exists (String a s1), s2.
Qed.

(** The file is named after the part of the time stamp before its first T:
    for a stamp made of a date without T, a T and a time, the name is
    team-report-, the date and .csv. *)
Theorem reportFileName_date (date time : string) :
  ~ occurs "T" date ->
  reportFileName (date ++ String "T" time)%string
  = ("team-report-" ++ date ++ ".csv")%string.
Proof.
  intros H. unfold reportFileName. now rewrite beforeFirst_app.
Qed.

Lemma reportFileName_date_witness :
  ~ occurs "T" "2026-11-02"
  /\ reportFileName "2026-11-02T17:15:00.000Z" = "team-report-2026-11-02.csv"%string.
Proof.
  assert (H : ~ occurs "T" "2026-11-02").
  { rewrite <- Report.includes_char_occurs. discriminate. }
  exact (conj H (reportFileName_date "2026-11-02" "17:15:00.000Z" H)).
Defined.

(** *** Loading *)

Lemma str_or_not_empty (x : option string) (d : string) :
  d <> EmptyString -> str_or x d <> EmptyString.
Proof. intros H. destruct x as [[|a s]|]; simpl; congruence. Qed.


(** *** The end of the report *)

Local Open Scope string_scope.
#[local] Arguments String.append !s1 s2 : simpl nomatch.

Lemma lastChar_app (s t : string) :
  lastChar (s ++ t) = match lastChar t with
                      | Some c => Some c
                      | None => lastChar s
                      end.
Proof.
  induction s as [|a s IH]; simpl.
  - now destruct (lastChar t).
  - rewrite IH. destruct (lastChar t); [reflexivity|]. reflexivity.
Qed.

Lemma ends_with_lastChar (c : ascii) (s : string) :
  ends_with c s -> lastChar s = Some c.
Proof. intros (s' & ->). now rewrite lastChar_app. Qed.

Lemma lastChar_includes (c : ascii) (s : string) :
  lastChar s = Some c -> includes s (str c) = true.
Proof.
  induction s as [|a s IH]; [discriminate|].
  rewrite Report.includes_char_cons. cbn [lastChar].
  destruct (lastChar s) as [b|].
  - intros H. rewrite (IH H). apply orb_true_r.
  - intros [= ->]. now rewrite Ascii.eqb_refl.
Qed.

Lemma lastChar_escapeCell (N : Q -> string) (cell : Cell) :
  lastChar (escapeCell N cell) <> Some newline.
Proof.
  unfold escapeCell. fold (mustQuote (String_ N cell)).
  destruct (mustQuote (String_ N cell)) eqn:E.
  - rewrite !lastChar_app. discriminate.
  - intros H. apply lastChar_includes in H.
    unfold mustQuote in E. rewrite H in E.
    rewrite orb_true_r in E. discriminate E.
Qed.

Lemma lastChar_after_comma (N : Q -> string) (cells : list Cell) :
  cells <> [] ->
  exists c, lastChar (String comma (csvLine N cells)) = Some c /\ c <> newline.
Proof.
  induction cells as [|cell cells IH]; intros Hne; [contradiction|].
  destruct cells as [|c2 cells].
  - rewrite Report.csvLine_one. cbn [lastChar].
    pose proof (lastChar_escapeCell N cell) as H.
    destruct (lastChar (escapeCell N cell)) as [c|].
    + exists c. split; [reflexivity|congruence].
    + exists comma. split; [reflexivity|discriminate].
  - rewrite Report.csvLine_cons.
    change (String comma (escapeCell N cell ++ String comma (csvLine N (c2 :: cells))))
      with (str comma ++ escapeCell N cell ++ String comma (csvLine N (c2 :: cells))).
    rewrite !lastChar_app.
    destruct IH as (c & Hc & Hn); [discriminate|].
    rewrite Hc. now exists c.
Qed.

Lemma lastChar_join_last (sep x : string) (l : list string) :
  lastChar x <> None -> lastChar (join sep (l ++ [x])) = lastChar x.
Proof.
  intros Hx. induction l as [|a l IH]; [reflexivity|].
  destruct l as [|b l].
  - cbn [List.app]. rewrite Report.join_cons, Report.join_one, !lastChar_app.
    destruct (lastChar x); [reflexivity|contradiction].
  - cbn [List.app] in *. rewrite Report.join_cons, !lastChar_app, IH.
    destruct (lastChar x); [reflexivity|contradiction].
Qed.

Lemma allRows_last (N : Q -> string) (userData : option UserData.t)
    (localeDate : string) (st : State) :
  exists front c1 c2 cells,
    allRows N userData localeDate st = (front ++ [c1 :: c2 :: cells])%list.
Proof.
  unfold allRows.
  destruct (players st) as [|p l] eqn:E using rev_ind.
  - exists (summaryRows N userData localeDate st). eexists _, _, _.
    cbn [map]. unfold headers. reflexivity.
  - exists (summaryRows N userData localeDate st ++ [headers] ++ map playerRow l)%list.
    eexists _, _, _. rewrite map_app, !List.app_assoc. cbn [map].
    unfold playerRow at 2. reflexivity.
Qed.

(** The report does not end with a newline, and it is not empty. *)
Theorem report_no_trailing_newline (N : Q -> string) (userData : option UserData.t)
    (localeDate : string) (st : State) :
  ~ ends_with newline (handleExportReport N userData localeDate st)
  /\ handleExportReport N userData localeDate st <> EmptyString.
Proof.
  unfold handleExportReport.
  destruct (allRows_last N userData localeDate st) as (front & c1 & c2 & cells & ->).
  rewrite map_app. cbn [map].
  destruct (lastChar_after_comma N (c2 :: cells)) as (c & Hc & Hn); [discriminate|].
  assert (Hlast : lastChar (csvLine N (c1 :: c2 :: cells)) = Some c).
  { rewrite Report.csvLine_cons, lastChar_app. now rewrite Hc. }
  assert (Hdoc : lastChar (join (str newline)
                             (map (csvLine N) front ++ [csvLine N (c1 :: c2 :: cells)]))
                 = Some c).
  { rewrite lastChar_join_last; [assumption|]. rewrite Hlast. discriminate. }
  split.
  - intros H. apply ends_with_lastChar in H. congruence.
  - intros H. rewrite H in Hdoc. discriminate Hdoc.
Qed.

End DashboardFacts.

(** ** More on the registration form *)

Module FormFacts.
Import JS JSFacts RegExp RegExpFacts RegisterForm Spec Examples.
Local Open Scope string_scope.
#[local] Arguments String.append !s1 s2 : simpl nomatch.

(** *** Trimming *)

Lemma trimEnd_empty (s : string) : trimEnd s = EmptyString -> all_whitespace s.
Proof.
  induction s as [|a s IH]; simpl; [trivial|].
  destruct (trimEnd s) as [|b t]; [|discriminate].
  destruct (is_whitespace a) eqn:E; [|discriminate].
  intros _. split; [reflexivity|now apply IH].
Qed.

Lemma trimStart_empty (s : string) : trimStart s = EmptyString -> all_whitespace s.
Proof.
  induction s as [|a s IH]; simpl; [trivial|].
  destruct (is_whitespace a) eqn:E; [|discriminate].
  intros H. split; [reflexivity|now apply IH].
Qed.

Lemma trimStart_head (s : string) (a : ascii) (t : string) :
  trimStart s = String a t -> is_whitespace a = false.
Proof.
  induction s as [|b s IH]; simpl; [discriminate|].
  destruct (is_whitespace b) eqn:E; [exact IH|].
  intros [= <- _]. exact E.
Qed.

(** A string trims to nothing exactly when it is white space throughout. *)
Lemma trim_empty_iff (s : string) : is_empty (trim s) = true <-> all_whitespace s.
Proof.
  rewrite Validation.is_empty_true. split.
  - unfold trim. intros H. apply trimEnd_empty in H.
    destruct (trimStart s) as [|a t] eqn:E.
    + now apply trimStart_empty.
    + apply trimStart_head in E. destruct H as [H _]. congruence.
  - apply Validation.trim_all_whitespace.
Qed.

Lemma all_whitespace_app (s1 s2 : string) :
  all_whitespace (s1 ++ s2) <-> all_whitespace s1 /\ all_whitespace s2.
Proof.
  induction s1 as [|a s1 IH]; simpl; [tauto|]. rewrite IH. tauto.
Qed.

Lemma email_shape_not_whitespace (e m : string) :
  substring_of m e -> email_shape m -> ~ all_whitespace e.
Proof.
  intros (pre & post & ->) (a & b & c & [Hne Ha] & _ & _ & ->) H.
  apply all_whitespace_app in H as [_ H].
  apply all_whitespace_app in H as [H _].
  apply all_whitespace_app in H as [H _].
  destruct a as [|x a]; [contradiction|].
  destruct Ha as [Hx _]. destruct H as [Hx' _]. congruence.
Qed.

(** *** Which errors, and when *)

(** The form reports a name, or an email, as required exactly when it is
    white space throughout, the empty string included. *)
Theorem required_iff_blank (formData : FormData) :
  (validateForm formData !! "name" = Some name_required
   <-> all_whitespace (name formData))
  /\ (validateForm formData !! "email" = Some email_required
      <-> all_whitespace (email formData)).
Proof.
  rewrite Validation.lookup_name, Validation.lookup_email.
  unfold nameRule, emailRule. rewrite <- !trim_empty_iff. split.
  - destruct (is_empty (trim (name formData))); [tauto|].
    destruct (String.length (trim (name formData)) <? 2)%nat;
      split; discriminate.
  - destruct (is_empty (trim (email formData))); [tauto|].
    destruct (test emailPattern (email formData)); split; discriminate.
Qed.

Lemma report_empty (k : string) (e : option string) (m : gmap string string) :
  report k e m = ∅ <-> e = None /\ m = ∅.
Proof.
  destruct e as [msg|]; simpl.
  - split; [|intros [? _]; discriminate].
    intros H. exfalso. exact (insert_non_empty _ _ _ H).
  - tauto.
Qed.

Lemma nameRule_none (n : string) :
  nameRule n = None <-> (2 <= String.length (trim n))%nat.
Proof.
  unfold nameRule. destruct (trim n) as [|a t] eqn:E; simpl.
  - split; [discriminate|lia].
  - destruct (String.length t) as [|k]; simpl; split; (discriminate || lia || reflexivity).
Qed.

Lemma emailRule_none (e : string) :
  emailRule e = None <-> exists m, substring_of m e /\ email_shape m.
Proof.
  unfold emailRule. rewrite <- Validation.test_emailPattern.
  destruct (is_empty (trim e)) eqn:E.
  - split; [discriminate|]. intros H. exfalso.
    apply trim_empty_iff in E. apply Validation.test_emailPattern in H as (m & Hs & Hm).
    exact (email_shape_not_whitespace e m Hs Hm E).
  - destruct (test emailPattern e); split; congruence.
Qed.

Lemma passwordRule_none (p : string) :
  passwordRule p = None <-> (6 <= String.length p)%nat.
Proof.
  unfold passwordRule. destruct p as [|a p]; simpl.
  - split; [discriminate|lia].
  - destruct (Nat.ltb_spec (String.length p) 5) as [H|H].
    + destruct (String.length p) as [|[|[|[|[|k]]]]]; simpl;
        split; (discriminate || lia).
    + destruct (String.length p) as [|[|[|[|[|k]]]]]; simpl;
        split; (reflexivity || lia).
Qed.

Lemma confirmPasswordRule_none (p c : string) :
  confirmPasswordRule p c = None <-> c <> EmptyString /\ c = p.
Proof.
  unfold confirmPasswordRule. destruct c as [|a c]; simpl.
  - split; [discriminate|]. now intros [H _].
  - destruct (String.eqb_spec p (String a c)) as [->|Hne].
    + split; [now split|reflexivity].
    + split; [discriminate|]. intros [_ H]. congruence.
Qed.

Lemma roleRule_none (r : string) : roleRule r = None <-> r <> EmptyString.
Proof. unfold roleRule. destruct r; simpl; split; congruence. Qed.

Lemma sportRule_none (r s : string) :
  sportRule r s = None <-> (r = "player" -> s <> EmptyString).
Proof.
  unfold sportRule. destruct (String.eqb_spec r "player") as [->|Hne]; simpl.
  - destruct s; simpl; split; try congruence. intros H. now exfalso; apply H.
  - split; [intros _ H; contradiction|reflexivity].
Qed.

Lemma validateForm_empty_iff (formData : FormData) :
  validateForm formData = ∅ <-> acceptable formData.
Proof.
  rewrite Validation.validateForm_rules. rewrite !report_empty.
  rewrite nameRule_none, emailRule_none, passwordRule_none,
    confirmPasswordRule_none, roleRule_none, sportRule_none.
  unfold acceptable. split.
  - intros (Hs & Hr & [_ Hc] & Hp & He & Hn & _). auto 10.
  - intros (Hn & He & Hp & Hc & Hr & Hs).
    repeat split; try assumption.
    intros H. rewrite Hc in H. rewrite H in Hp. simpl in Hp. lia.
Qed.

(** The form reports no error exactly for the candidates whose trimmed name
    has two characters or more, whose email holds a part of the shape
    token@token.token, whose password has six characters or more and is
    repeated in the confirmation, whose role is set, and whose sport is set if
    the role is player; these are the candidates [handleSubmit] lets
    through. *)
Theorem accepted_iff_acceptable (formData : FormData) :
  (validateForm formData = ∅ <-> acceptable formData)
  /\ (formIsValid formData = true <-> acceptable formData)
  /\ ((forall k, validateForm formData !! k = None) <-> acceptable formData).
Proof.
  split; [apply validateForm_empty_iff|]. split.
  - rewrite <- validateForm_empty_iff, <- map_size_empty_iff.
    unfold formIsValid. rewrite negb_true_iff, Nat.ltb_ge. lia.
  - rewrite <- validateForm_empty_iff. split.
    + intros H. apply map_eq. intros k. now rewrite H, lookup_empty.
    + intros -> k. apply lookup_empty.
Qed.

Lemma size_report_le (k : string) (e : option string) (m : gmap string string) :
  size (report k e m) <= S (size m).
Proof.
  destruct e as [msg|]; simpl; [|lia].
  rewrite map_size_insert. destruct (m !! k); simpl; lia.
Qed.

Lemma roleRule_sportRule (r s : string) :
  roleRule r = None \/ sportRule r s = None.
Proof.
  unfold roleRule, sportRule. destruct r; simpl; auto.
Qed.

(** The form never reports the role and the sport together, so a result
    holds five errors at most (the first example candidate has five), and it never
    reports under a key that is not one of the six field names. *)
Theorem at_most_five_errors (formData : FormData) :
  size (validateForm formData) <= 5
  /\ ~ (is_Some (validateForm formData !! "role")
        /\ is_Some (validateForm formData !! "sport"))
  /\ (forall k, is_Some (validateForm formData !! k) ->
        In k ["name"; "email"; "password"; "confirmPassword"; "role"; "sport"])
  /\ size (validateForm candidateBad) = 5.
Proof.
  split; [|split; [|split]].
  - rewrite Validation.validateForm_rules.
    set (m1 := report "name" _ ∅).
    set (m2 := report "email" _ m1).
    set (m3 := report "password" _ m2).
    set (m4 := report "confirmPassword" _ m3).
    assert (H1 : size m1 <= 1) by apply size_report_le.
    assert (H2 : size m2 <= 2).
    { pose proof (size_report_le "email" (emailRule (email formData)) m1). subst m2. lia. }
    assert (H3 : size m3 <= 3).
    { pose proof (size_report_le "password" (passwordRule (password formData)) m2).
      subst m3. lia. }
    assert (H4 : size m4 <= 4).
    { pose proof (size_report_le "confirmPassword"
                    (confirmPasswordRule (password formData) (confirmPassword formData)) m3).
      subst m4. lia. }
    destruct (roleRule_sportRule (role formData) (sport formData)) as [E|E]; rewrite E.
    + cbn [report].
      pose proof (size_report_le "sport" (sportRule (role formData) (sport formData)) m4).
      lia.
    + cbn [report].
      pose proof (size_report_le "role" (roleRule (role formData)) m4). lia.
  - rewrite Validation.lookup_role, Validation.lookup_sport.
    intros [[x Hx] [y Hy]].
    destruct (roleRule_sportRule (role formData) (sport formData)); congruence.
  - intros k. rewrite Validation.validateForm_rules.
    destruct (decide ("sport" = k)) as [<-|N6]; [simpl; tauto|].
    rewrite Validation.lookup_report_ne by assumption.
    destruct (decide ("role" = k)) as [<-|N5]; [simpl; tauto|].
    rewrite Validation.lookup_report_ne by assumption.
    destruct (decide ("confirmPassword" = k)) as [<-|N4]; [simpl; tauto|].
    rewrite Validation.lookup_report_ne by assumption.
    destruct (decide ("password" = k)) as [<-|N3]; [simpl; tauto|].
    rewrite Validation.lookup_report_ne by assumption.
    destruct (decide ("email" = k)) as [<-|N2]; [simpl; tauto|].
    rewrite Validation.lookup_report_ne by assumption.
    destruct (decide ("name" = k)) as [<-|N1]; [simpl; tauto|].
    rewrite Validation.lookup_report_ne by assumption.
    rewrite lookup_empty. intros [x Hx]. discriminate Hx.
  - vm_compute. reflexivity.
Qed.

(** *** Typing into the form *)

(** A change sets the field typed into and leaves the form's other fields as
    they were, except that choosing the role coach also empties the sport. *)
Theorem handleChange_fields (f : Field) (value : string) (st : FormState) :
  getField f (formData (handleChange f value st)) = value
  /\ (forall g, g <> f -> ~ (f = FRole /\ value = "coach" /\ g = FSport) ->
        getField g (formData (handleChange f value st)) = getField g (formData st))
  /\ (f = FRole -> value = "coach" ->
        sport (formData (handleChange f value st)) = EmptyString)
  /\ isSubmitting (handleChange f value st) = isSubmitting st.
Proof.
  unfold handleChange.
  destruct (shown (errors st !! fieldName f));
    destruct (shown (errors st !! "sport"));
    destruct (String.eqb_spec value "coach") as [->|Hv];
    destruct f; cbn;
    (split; [reflexivity|]);
    (split; [intros g Hg Hx; destruct g; cbn; try reflexivity; try contradiction;
             exfalso; apply Hx; auto|]);
    (split; [intros; try reflexivity; try discriminate; try contradiction|reflexivity]).
Qed.

(** A change never makes an error appear: it hides the error of the field
    typed into, and that of the sport when the role coach is chosen, and
    leaves the other entries as they were. *)
Theorem handleChange_errors (f : Field) (value : string) (st : FormState) :
  shown (errors (handleChange f value st) !! fieldName f) = false
  /\ (f = FRole -> value = "coach" ->
        shown (errors (handleChange f value st) !! "sport") = false)
  /\ (forall k, shown (errors (handleChange f value st) !! k) = true ->
        shown (errors st !! k) = true)
  /\ (forall k, k <> fieldName f ->
        ~ (f = FRole /\ value = "coach" /\ k = "sport") ->
        errors (handleChange f value st) !! k = errors st !! k).
Proof.
  assert (Hins : forall (m : gmap string string) k k',
            shown (<[k := EmptyString]> m !! k') = true -> shown (m !! k') = true).
  { intros m k k'. rewrite lookup_insert. case_decide; [discriminate|trivial]. }
  assert (Hhide : forall (m : gmap string string) k,
            shown (<[k := EmptyString]> m !! k) = false).
  { intros m k. now rewrite lookup_insert_eq. }
  assert (Hkeep : forall (m : gmap string string) k k',
            shown (m !! k') = false -> shown (<[k := EmptyString]> m !! k') = false).
  { intros m k k' H. rewrite lookup_insert. now case_decide. }
  unfold handleChange.
  destruct (shown (errors st !! fieldName f)) eqn:Ef;
    destruct (shown (errors st !! "sport")) eqn:Es;
    destruct (String.eqb (fieldName f) "role" && String.eqb value "coach") eqn:Ec;
    cbn [errors setErrors setFormData];
    (split; [auto|]);
    (split; [intros -> ->; cbn in Ec |- *; try discriminate Ec; auto|]);
    (split; [intros k Hk; repeat (apply Hins in Hk); exact Hk|]);
    intros k Hk1 Hk2;
    try (apply andb_true_iff in Ec as [Ec1 Ec2];
         apply String.eqb_eq in Ec2; subst value;
         destruct f; try discriminate Ec1;
         assert (Hk3 : k <> "sport") by (intros ->; apply Hk2; auto));
    rewrite ?lookup_insert_ne by congruence; reflexivity.
Qed.

(** *** The states the user can reach *)

Lemma handleChange_formData (f : Field) (value : string) (st : FormState) :
  formData (handleChange f value st)
  = if String.eqb (fieldName f) "role" && String.eqb value "coach"
    then setField FSport EmptyString (setField f value (formData st))
    else setField f value (formData st).
Proof.
  unfold handleChange.
  destruct (shown (errors st !! fieldName f)), (shown (errors st !! "sport")),
    (String.eqb (fieldName f) "role" && String.eqb value "coach"); reflexivity.
Qed.

Lemma handleSubmit_formData (register : Registration -> RegisterResult)
    (st : FormState) :
  formData (after (handleSubmit register st)) = formData st.
Proof.
  unfold handleSubmit.
  destruct (0 <? size (validateForm (formData st)))%nat; [reflexivity|].
  destruct (register (registration (formData st))); reflexivity.
Qed.

(** In every state the user can reach, a coach has no sport: the sport is
    emptied when the role coach is chosen, and the sport input is not
    rendered while the role is not player. *)
Theorem coach_has_no_sport (st : FormState) :
  reachable st ->
  role (formData st) = "coach" -> sport (formData st) = EmptyString.
Proof.
  induction 1 as [|st f value _ IH Hr|st register _ IH].
  - discriminate.
  - rewrite handleChange_formData.
    destruct f; cbn [fieldName String.eqb Ascii.eqb Bool.eqb andb rendered] in *;
      try exact IH.
    + destruct (String.eqb_spec value "coach") as [E|E]; cbn; [reflexivity|].
      intros Hv. contradiction.
    + cbn. apply String.eqb_eq in Hr. rewrite Hr. discriminate.
  - now rewrite handleSubmit_formData.
Qed.

Lemma coach_has_no_sport_witness :
  let st :=
    handleChange FRole "coach"
      (handleChange FSport "cricket"
         (handleChange FRole "player" initialFormState)) in
  reachable st
  /\ role (formData st) = "coach"
  /\ sport (formData st) = EmptyString.
Proof.
  cbv zeta.
  assert (Hr : reachable
                 (handleChange FRole "coach"
                    (handleChange FSport "cricket"
                       (handleChange FRole "player" initialFormState)))).
  { repeat (apply reachable_change; [|reflexivity]). apply reachable_initial. }
  exact (conj Hr (conj eq_refl (coach_has_no_sport _ Hr eq_refl))).
Defined.

(** Elsewhere a sport can outlive its role: going from player back to no
    role keeps the sport that was chosen. *)
Example sport_outlives_player :
  let st :=
    handleChange FRole EmptyString
      (handleChange FSport "cricket"
         (handleChange FRole "player" initialFormState)) in
  role (formData st) = EmptyString /\ sport (formData st) = "cricket".
Proof. split; reflexivity. Qed.

(** *** Submitting *)

Lemma handleSubmit_invalid (register : Registration -> RegisterResult)
    (st : FormState) :
  validateForm (formData st) <> ∅ ->
  handleSubmit register st
  = {| after := setErrors (fun _ => validateForm (formData st)) st;
       called := None; reloaded := false |}.
Proof.
  intros H. unfold handleSubmit.
  apply map_size_non_empty_iff in H.
  destruct (Nat.ltb_spec 0 (size (validateForm (formData st)))); [reflexivity|lia].
Qed.

Lemma handleSubmit_valid (register : Registration -> RegisterResult)
    (st : FormState) :
  validateForm (formData st) = ∅ ->
  handleSubmit register st
  = match register (registration (formData st)) with
    | Registered =>
        {| after := {| formData := formData st; errors := ∅; isSubmitting := false |};
           called := Some (registration (formData st)); reloaded := true |}
    | Rejected message =>
        {| after := {| formData := formData st;
                       errors := match message with
                                 | Some m => {["submit" := m]}
                                 | None => ∅
                                 end;
                       isSubmitting := false |};
           called := Some (registration (formData st)); reloaded := false |}
    end.
Proof.
  intros H. unfold handleSubmit. rewrite H. cbn.
  destruct (register (registration (formData st))); reflexivity.
Qed.

(** [register] is called exactly when the candidate is acceptable, and then
    with the data of the form; otherwise the errors found replace the ones
    shown, nothing else changes and the page is not reloaded. *)
Theorem submit_gate (register : Registration -> RegisterResult) (st : FormState) :
  (called (handleSubmit register st) = None <-> ~ acceptable (formData st))
  /\ (called (handleSubmit register st) = Some (registration (formData st))
      <-> acceptable (formData st))
  /\ (~ acceptable (formData st) ->
      after (handleSubmit register st)
      = {| formData := formData st;
           errors := validateForm (formData st);
           isSubmitting := isSubmitting st |}
      /\ reloaded (handleSubmit register st) = false).
Proof.
  rewrite <- validateForm_empty_iff.
  destruct (decide (validateForm (formData st) = ∅)) as [E|E].
  - rewrite (handleSubmit_valid register st E).
    destruct (register (registration (formData st))); cbn;
      (split; [split; [discriminate|contradiction]|]);
      (split; [tauto|contradiction]).
  - rewrite (handleSubmit_invalid register st E). cbn.
    split; [tauto|]. split; [split; [discriminate|contradiction]|].
    intros _. split; reflexivity.
Qed.

(** What [register] is given: a name trimmed to two characters or more, a
    password of six characters or more, an email holding a part of the
    shape token@token.token, a role that is set, and a sport exactly for the
    role player, which is then set too. *)
Theorem register_receives (register : Registration -> RegisterResult)
    (st : FormState) (call : Registration) :
  called (handleSubmit register st) = Some call ->
  reg_name call = trim (name (formData st))
  /\ (2 <= String.length (reg_name call))%nat
  /\ (6 <= String.length (reg_password call))%nat
  /\ (exists m, substring_of m (reg_email call) /\ email_shape m)
  /\ reg_role call <> EmptyString
  /\ (reg_role call = "player" ->
      exists s, reg_sport call = Some s /\ s <> EmptyString)
  /\ (reg_role call <> "player" -> reg_sport call = None).
Proof.
  intros Hc.
  destruct (decide (validateForm (formData st) = ∅)) as [E|E].
  - rewrite (handleSubmit_valid register st E) in Hc.
    assert (Hcall : call = registration (formData st)).
    { destruct (register (registration (formData st))); cbn in Hc; congruence. }
    apply validateForm_empty_iff in E as (Hn & He & Hp & _ & Hr & Hs).
    subst call. unfold registration. cbn.
    repeat split; try assumption.
    + intros Hrole. rewrite Hrole. cbn. eexists. split; [reflexivity|auto].
    + intros Hrole. apply String.eqb_neq in Hrole. now rewrite Hrole.
  - rewrite (handleSubmit_invalid register st E) in Hc. discriminate Hc.
Qed.

Lemma register_receives_witness :
  let st := {| formData := candidateCoach; errors := ∅; isSubmitting := false |} in
  let call := registration candidateCoach in
  called (handleSubmit (fun _ => Registered) st) = Some call
  /\ reg_name call = "Jane Doe" /\ reg_sport call = None.
Proof.
  cbv zeta.
  assert (H : called (handleSubmit (fun _ => Registered)
                        {| formData := candidateCoach; errors := ∅;
                           isSubmitting := false |})
              = Some (registration candidateCoach)) by reflexivity.
  pose proof (register_receives _ _ _ H) as (Hn & _ & _ & _ & _ & _ & Hs).
  exact (conj H (conj Hn (Hs ltac:(discriminate)))).
Defined.

(** Once [register] has been called the form is no longer submitting and
    keeps its data; the page is reloaded exactly when [register] returned, and
    when it threw, the errors shown are the message thrown and nothing else. *)
Theorem submit_outcome (register : Registration -> RegisterResult) (st : FormState) :
  acceptable (formData st) ->
  isSubmitting (after (handleSubmit register st)) = false
  /\ formData (after (handleSubmit register st)) = formData st
  /\ (reloaded (handleSubmit register st) = true
      <-> register (registration (formData st)) = Registered)
  /\ (register (registration (formData st)) = Registered ->
      errors (after (handleSubmit register st)) = ∅)
  /\ (forall m, register (registration (formData st)) = Rejected (Some m) ->
      errors (after (handleSubmit register st)) = {["submit" := m]})
  /\ (register (registration (formData st)) = Rejected None ->
      errors (after (handleSubmit register st)) = ∅).
Proof.
  intros H. apply validateForm_empty_iff in H.
  rewrite (handleSubmit_valid register st H).
  destruct (register (registration (formData st))) as [|[m|]]; cbn;
    repeat split; try reflexivity; try discriminate;
    intros; congruence.
Qed.

Lemma submit_outcome_witness :
  let st := {| formData := candidateCoach; errors := ∅; isSubmitting := false |} in
  acceptable (formData st)
  /\ isSubmitting
       (after (handleSubmit (fun _ => Rejected (Some "taken")) st)) = false
  /\ errors (after (handleSubmit (fun _ => Rejected (Some "taken")) st))
     = {["submit" := "taken"]}.
Proof.
  cbv zeta.
  assert (H : acceptable candidateCoach).
  { apply validateForm_empty_iff. reflexivity. }
  pose proof (submit_outcome (fun _ => Rejected (Some "taken"))
                {| formData := candidateCoach; errors := ∅; isSubmitting := false |} H)
    as (H1 & _ & _ & _ & H5 & _).
  exact (conj H (conj H1 (H5 "taken" eq_refl))).
Defined.

End FormFacts.
